(** * DCA1000 host driver: command framing and frame reassembly

    A shallow embedding of [Dev01.py] (class [DCA1000] and the module
    constants around it) and the properties of its command-message layout,
    data-packet header decoding and streaming frame reassembly.

    Conventions of the embedding:
    - Python integers are [Z]; [//] is [Z.div] and [%] is [Z.modulo] (both
      floor, as in Python, for the positive divisors used here);
    - [bytes] values are [list byte]; [str] values are [string];
    - a numpy [uint16] array is a [list Z];
    - an exception that leaves a function is an explicit constructor of its
      result type; an exception caught inside it becomes the value the
      handler returns. *)

From Stdlib Require Import ZArith List Bool Lia.
From Stdlib.Strings Require Import String Ascii Byte.
Import ListNotations.
Open Scope Z_scope.

(** ** Module constants (Dev01.py, lines 27-50) *)

Definition CONFIG_HEADER : string := "5AA5".
Definition CONFIG_FOOTER : string := "AAEE".
Definition CONFIG_STATUS : string := "0000".

Module ADC_PARAMS.
Definition chirps : Z := 128.
Definition rx : Z := 4.
Definition tx : Z := 3.
Definition samples : Z := 128.
Definition IQ : Z := 2.
Definition bytes : Z := 2.
End ADC_PARAMS.

Definition MAX_PACKET_SIZE : Z := 4096.
Definition BYTES_IN_PACKET : Z := 1456.

Definition BYTES_IN_FRAME : Z :=
  ADC_PARAMS.chirps * ADC_PARAMS.rx * ADC_PARAMS.tx *
  ADC_PARAMS.IQ * ADC_PARAMS.samples * ADC_PARAMS.bytes.
Definition BYTES_IN_FRAME_CLIPPED : Z :=
  (BYTES_IN_FRAME / BYTES_IN_PACKET) * BYTES_IN_PACKET.
Definition PACKETS_IN_FRAME_CLIPPED : Z := BYTES_IN_FRAME / BYTES_IN_PACKET.
Definition UINT16_IN_PACKET : Z := BYTES_IN_PACKET / 2.
Definition UINT16_IN_FRAME : Z := BYTES_IN_FRAME / 2.

(** The frame size the specification's FrameGeometry names
    [wordsPerClippedFrame]: half the clipped frame's bytes. The source has
    no constant for it; it is stated here from the specification's words to
    compare it with the buffer [read] allocates. *)
Definition wordsPerClippedFrame : Z := BYTES_IN_FRAME_CLIPPED / 2.

(** ** Command codes (class CMD, lines 8-25) *)

Inductive CMD : Type :=
| RESET_FPGA_CMD_CODE
| RESET_AR_DEV_CMD_CODE
| CONFIG_FPGA_GEN_CMD_CODE
| CONFIG_EEPROM_CMD_CODE
| RECORD_START_CMD_CODE
| RECORD_STOP_CMD_CODE
| PLAYBACK_START_CMD_CODE
| PLAYBACK_STOP_CMD_CODE
| SYSTEM_CONNECT_CMD_CODE
| SYSTEM_ERROR_CMD_CODE
| CONFIG_PACKET_DATA_CMD_CODE
| CONFIG_DATA_MODE_AR_DEV_CMD_CODE
| INIT_FPGA_PLAYBACK_CMD_CODE
| READ_FPGA_VERSION_CMD_CODE.

Definition value (c : CMD) : string :=
  match c with
  | RESET_FPGA_CMD_CODE => "0100"
  | RESET_AR_DEV_CMD_CODE => "0200"
  | CONFIG_FPGA_GEN_CMD_CODE => "0300"
  | CONFIG_EEPROM_CMD_CODE => "0400"
  | RECORD_START_CMD_CODE => "0500"
  | RECORD_STOP_CMD_CODE => "0600"
  | PLAYBACK_START_CMD_CODE => "0700"
  | PLAYBACK_STOP_CMD_CODE => "0800"
  | SYSTEM_CONNECT_CMD_CODE => "0900"
  | SYSTEM_ERROR_CMD_CODE => "0a00"
  | CONFIG_PACKET_DATA_CMD_CODE => "0b00"
  | CONFIG_DATA_MODE_AR_DEV_CMD_CODE => "0c00"
  | INIT_FPGA_PLAYBACK_CMD_CODE => "0d00"
  | READ_FPGA_VERSION_CMD_CODE => "0e00"
  end.

(** ** Python's [bytes] primitives used by the driver *)

Module Bytes.

Definition to_Z (b : byte) : Z := Z.of_N (Byte.to_N b).

(** The byte with the given value; every call below passes a value under 256. *)
Definition of_N (n : N) : byte :=
  match Byte.of_N n with
  | Some b => b
  | None => x00
  end.

(** The value of a hexadecimal digit, in either case, as [bytes.fromhex]
    reads it: ['0'..'9'] are codes 48..57, ['a'..'f'] 97..102 and
    ['A'..'F'] 65..70. *)
Definition hex_digit (c : ascii) : option N :=
  let n := N_of_ascii c in
  (if (48 <=? n) && (n <=? 57) then Some (n - 48)
   else if (97 <=? n) && (n <=? 102) then Some (n - 87)
   else if (65 <=? n) && (n <=? 70) then Some (n - 55)
   else None)%N.

(** ASCII whitespace: space, tab, line feed, vertical tab, form feed,
    carriage return. *)
Definition is_space (c : ascii) : bool :=
  let n := N_of_ascii c in
  ((9 <=? n) && (n <=? 13) || (n =? 32))%N.

(** [bytes.fromhex]: two hexadecimal digits per byte, ASCII whitespace
    skipped before each pair; [None] is the [ValueError] raised on any other
    character or on a dangling digit. *)
Fixpoint fromhex (s : string) : option (list byte) :=
  match s with
  | EmptyString => Some []
  | String c s' =>
    if is_space c then fromhex s'
    else
      match hex_digit c, s' with
      | Some top, String d s'' =>
        match hex_digit d with
        | Some bot =>
          match fromhex s'' with
          | Some rest => Some (of_N (top * 16 + bot) :: rest)
          | None => None
          end
        | None => None
        end
      | _, _ => None
      end
  end.

(** [l[a:b]] for [0 <= a <= b]: indices past the end are clipped. *)
Definition slice {A : Type} (a b : nat) (l : list A) : list A :=
  firstn (b - a) (skipn a l).

(** [int.from_bytes(bs, 'little')]. *)
Fixpoint from_little (bs : list byte) : Z :=
  match bs with
  | [] => 0
  | b :: rest => to_Z b + 256 * from_little rest
  end.

(** [int.from_bytes(bs, 'big')]. *)
Definition from_big (bs : list byte) : Z :=
  fold_left (fun acc b => acc * 256 + to_Z b) bs 0.

End Bytes.

(** ** [struct.unpack] for the two formats of [_read_data_packet] *)

Module Struct.

(** [struct.unpack('<1l', bs)[0]]: a signed 32-bit little-endian integer;
    [None] is the [struct.error] raised unless [bs] has exactly 4 bytes. *)
Definition unpack_lt_1l (bs : list byte) : option Z :=
  if Nat.eqb (List.length bs) 4 then
    let u := Bytes.from_little bs in
    Some (if u <? 2 ^ 31 then u else u - 2 ^ 32)
  else None.

(** [struct.unpack('>Q', bs)[0]]: an unsigned 64-bit big-endian integer;
    [None] is the [struct.error] raised unless [bs] has exactly 8 bytes. *)
Definition unpack_gt_Q (bs : list byte) : option Z :=
  if Nat.eqb (List.length bs) 8 then Some (Bytes.from_big bs) else None.

End Struct.

(** ** The numpy operations on one-dimensional [uint16] arrays *)

Module Np.

(** [np.zeros(n, dtype=np.uint16)]. *)
Definition zeros (n : Z) : list Z := repeat 0 (Z.to_nat n).

(** [np.frombuffer(bs, dtype=np.uint16)]: little-endian words; [None] is
    the [ValueError] raised when the size is not a multiple of 2. *)
Fixpoint frombuffer_uint16 (bs : list byte) : option (list Z) :=
  match bs with
  | [] => Some []
  | b0 :: rest =>
    match rest with
    | [] => None
    | b1 :: rest' =>
      match frombuffer_uint16 rest' with
      | Some ws => Some (Bytes.to_Z b0 + 256 * Bytes.to_Z b1 :: ws)
      | None => None
      end
    end
  end.

(** A slice bound brought into [0 .. n], as Python does for [a[i:j]]. *)
Definition clip (n i : Z) : Z :=
  if i <? 0 then Z.max 0 (i + n) else Z.min i n.

(** [arr[start:stop] = v]: the values are copied when [v] has the slice's
    length and broadcast when [v] has one element; [None] is the
    [ValueError] numpy raises for any other length. *)
Definition setslice (arr : list Z) (start stop : Z) (v : list Z)
  : option (list Z) :=
  let n := Z.of_nat (List.length arr) in
  let lo := clip n start in
  let hi := Z.max lo (clip n stop) in
  let k := Z.to_nat (hi - lo) in
  if Nat.eqb (List.length v) k then
    Some (firstn (Z.to_nat lo) arr ++ v ++ skipn (Z.to_nat hi) arr)
  else if Nat.eqb (List.length v) 1 then
    Some (firstn (Z.to_nat lo) arr ++ repeat (hd 0 v) k
          ++ skipn (Z.to_nat hi) arr)
  else None.

(** [arr[start:stop]] read back. *)
Definition getslice (arr : list Z) (start stop : Z) : list Z :=
  let n := Z.of_nat (List.length arr) in
  let lo := clip n start in
  let hi := Z.max lo (clip n stop) in
  Bytes.slice (Z.to_nat lo) (Z.to_nat hi) arr.

End Np.

(** ** [DCA1000.send_command]: the message that is sent (lines 97-106) *)

(** What the caller passes as [cmd]: a [CMD] member, a [str], or anything
    else. *)
Inductive cmd_arg : Type :=
| OfCMD (c : CMD)
| OfStr (s : string)
| OfOther.

(** The [message] bound at lines 97-106; [None] is the [ValueError] of
    line 106 or of [bytes.fromhex]. [length] and [params] are the caller's
    hexadecimal texts, with defaults ['0000'] and ['']. *)
Definition send_command_message (cmd : cmd_arg) (length params : string)
  : option (list byte) :=
  match cmd with
  | OfCMD c =>
    let header := CONFIG_HEADER in
    let footer := CONFIG_FOOTER in
    let command_code := value c in
    Bytes.fromhex (header ++ command_code ++ length ++ params ++ footer)%string
  | OfStr s => Bytes.fromhex s
  | OfOther => None
  end.

(** ** [DCA1000._read_data_packet] (lines 201-213) *)

Record packet : Type := mkPacket {
  packet_num : Z;
  byte_count : Z;
  packet_data : list Z
}.

(** What [data_socket.recvfrom(MAX_PACKET_SIZE)] does on one call: it
    returns the bytes it received, or raises [socket.timeout], or raises
    another error. *)
Inductive recv_event : Type :=
| Datagram (data : list byte)
| SocketTimeout
| SocketError.

(** Lines 203-204: the two header fields. *)
Definition decode_header (data : list byte) : option (Z * Z) :=
  match Struct.unpack_lt_1l (firstn 4 data) with
  | None => None
  | Some packet_num =>
    match Struct.unpack_gt_Q ([x00; x00] ++ rev (Bytes.slice 4 10 data)) with
    | None => None
    | Some byte_count => Some (packet_num, byte_count)
    end
  end.

(** [None] stands for the triple [None, None, None] both handlers return. *)
Definition _read_data_packet (ev : recv_event) : option packet :=
  match ev with
  | Datagram data =>
    match decode_header data with
    | None => None
    | Some (packet_num, byte_count) =>
      match Np.frombuffer_uint16 (skipn 10 data) with
      | None => None
      | Some packet_data => Some (mkPacket packet_num byte_count packet_data)
      end
    end
  | SocketTimeout => None
  | SocketError => None
  end.

(** ** [DCA1000.read] (lines 141-185) *)

(** The one attribute of the session [read] assigns. *)
Record session : Type := mkSession {
  lost_packets : option Z
}.

Inductive read_result : Type :=
| ReturnFrame (ret_frame : list Z)
| ReturnNone
| RaiseValueError.

(** One pass through the body of the first loop (lines 162-165), after a
    packet was read. *)
Inductive seek_outcome : Type :=
| SeekAgain
| SeekBreak (ret_frame : list Z) (packets_read : Z)
| SeekRaise.

Definition seek_body (ret_frame : list Z) (p : packet) : seek_outcome :=
  if byte_count p mod BYTES_IN_FRAME_CLIPPED =? 0 then
    let packets_read := 1 in
    match Np.setslice ret_frame 0 UINT16_IN_PACKET (packet_data p) with
    | Some ret_frame' => SeekBreak ret_frame' packets_read
    | None => SeekRaise
    end
  else SeekAgain.

(** The guarded write of lines 179-182: a failed assignment is swallowed. *)
Definition try_write (ret_frame : list Z) (curr_idx : Z) (packet_data : list Z)
  : list Z :=
  match Np.setslice ret_frame (curr_idx * UINT16_IN_PACKET)
          ((curr_idx + 1) * UINT16_IN_PACKET) packet_data with
  | Some ret_frame' => ret_frame'
  | None => ret_frame
  end.

(** Lines 184-185. *)
Definition wrap_counter (packets_read : Z) : Z :=
  if packets_read >? PACKETS_IN_FRAME_CLIPPED then 0 else packets_read.

(** One pass through the body of the second loop (lines 172-185), after a
    packet was read. *)
Inductive accumulate_outcome : Type :=
| AccReturn (ret_frame : list Z) (lost : Z)
| AccAgain (ret_frame : list Z) (packets_read : Z).

Definition accumulate_body (ret_frame : list Z) (packets_read : Z) (p : packet)
  : accumulate_outcome :=
  let packets_read := packets_read + 1 in
  if byte_count p mod BYTES_IN_FRAME_CLIPPED =? 0 then
    AccReturn ret_frame (PACKETS_IN_FRAME_CLIPPED - packets_read)
  else
    let curr_idx := (packet_num p - 1) mod PACKETS_IN_FRAME_CLIPPED in
    let ret_frame := try_write ret_frame curr_idx (packet_data p) in
    let packets_read := wrap_counter packets_read in
    AccAgain ret_frame packets_read.

(** The second loop (lines 168-185) over the socket's successive results.
    The data socket has a timeout, so a source with nothing more to give
    times out: the empty list behaves as [SocketTimeout]. *)
Fixpoint accumulate_loop (self : session) (ret_frame : list Z)
  (packets_read : Z) (evs : list recv_event) : read_result * session :=
  match evs with
  | [] => (ReturnNone, self)
  | ev :: evs' =>
    match _read_data_packet ev with
    | None => (ReturnNone, self)
    | Some p =>
      match accumulate_body ret_frame packets_read p with
      | AccReturn ret_frame' lost =>
        (ReturnFrame ret_frame', mkSession (Some lost))
      | AccAgain ret_frame' packets_read' =>
        accumulate_loop self ret_frame' packets_read' evs'
      end
    end
  end.

(** The first loop (lines 158-165), which falls into the second on [break]. *)
Fixpoint seek_loop (self : session) (ret_frame : list Z)
  (evs : list recv_event) : read_result * session :=
  match evs with
  | [] => (ReturnNone, self)
  | ev :: evs' =>
    match _read_data_packet ev with
    | None => (ReturnNone, self)
    | Some p =>
      match seek_body ret_frame p with
      | SeekAgain => seek_loop self ret_frame evs'
      | SeekBreak ret_frame' packets_read =>
        accumulate_loop self ret_frame' packets_read evs'
      | SeekRaise => (RaiseValueError, self)
      end
    end
  end.

(** [read] from line 155 on. Line 152 sets the timeout of the data socket
    before anything is received; the session is taken to be open with a
    valid timeout, so that the call does nothing the frame depends on. On a
    closed session the call itself fails, which is outside this
    definition. *)
Definition read (self : session) (evs : list recv_event)
  : read_result * session :=
  let ret_frame := Np.zeros UINT16_IN_FRAME in
  seek_loop self ret_frame evs.

(** ** The assembler as a machine fed one packet at a time

    The two loops of [read] seen as the states of an assembler: the first
    loop is [SeekingStart], the second is [Accumulating] with the loop's two
    variables; returning the frame leaves the machine ready for the next
    [read], which starts in its first loop with a fresh buffer. *)

Inductive state : Type :=
| SeekingStart
| Accumulating (ret_frame : list Z) (packets_read : Z).

Inductive event : Type :=
| NeedMore
| FrameReady (frame : list Z) (lostPackets : Z).

Inductive outcome : Type :=
| Step (st : state) (e : event)
| Raised.

Definition ingest (st : state) (p : packet) : outcome :=
  match st with
  | SeekingStart =>
    match seek_body (Np.zeros UINT16_IN_FRAME) p with
    | SeekAgain => Step SeekingStart NeedMore
    | SeekBreak ret_frame packets_read =>
      Step (Accumulating ret_frame packets_read) NeedMore
    | SeekRaise => Raised
    end
  | Accumulating ret_frame packets_read =>
    match accumulate_body ret_frame packets_read p with
    | AccReturn ret_frame' lost => Step SeekingStart (FrameReady ret_frame' lost)
    | AccAgain ret_frame' packets_read' =>
      Step (Accumulating ret_frame' packets_read') NeedMore
    end
  end.

(** Feeding a sequence of packets: the state reached and the events emitted,
    in order; [None] when a packet made [ingest] raise. *)
Fixpoint feed (st : state) (ps : list packet) : option (state * list event) :=
  match ps with
  | [] => Some (st, [])
  | p :: ps' =>
    match ingest st p with
    | Raised => None
    | Step st' e =>
      match feed st' ps' with
      | Some (st'', es) => Some (st'', e :: es)
      | None => None
      end
    end
  end.

Definition is_frame (e : event) : bool :=
  match e with
  | FrameReady _ _ => true
  | NeedMore => false
  end.

Definition frames (es : list event) : list event := filter is_frame es.

(** Whether a packet's cumulative byte count sits on a frame boundary. *)
Definition boundary (p : packet) : bool :=
  byte_count p mod BYTES_IN_FRAME_CLIPPED =? 0.

(** The slot a packet's sequence number selects (line 178). *)
Definition slot_of (p : packet) : Z :=
  (packet_num p - 1) mod PACKETS_IN_FRAME_CLIPPED.

(** [read] resumed in a given state of the assembler. *)
Definition read_from (self : session) (st : state) (evs : list recv_event)
  : read_result * session :=
  match st with
  | SeekingStart => seek_loop self (Np.zeros UINT16_IN_FRAME) evs
  | Accumulating ret_frame packets_read =>
    accumulate_loop self ret_frame packets_read evs
  end.

(** A sample that fits a [uint16]. *)
Definition uint16 (w : Z) : Prop := 0 <= w < 65536.

(** ** Reference readings of the data-packet header

    The header fields as the wire format words them, to compare with what
    [decode_header] computes. *)

(** The value of byte [k] of a datagram. *)
Definition byte_at (d : list byte) (k : nat) : Z := Bytes.to_Z (nth k d x00).

(** The sum of [d[off+k] * 256^k] for [k < n]. *)
Fixpoint little_endian_sum (d : list byte) (off n : nat) : Z :=
  match n with
  | O => 0
  | S n' => little_endian_sum d off n'
            + byte_at d (off + n') * 256 ^ Z.of_nat n'
  end.

(** An unsigned 32-bit value read as two's complement. *)
Definition as_int32 (u : Z) : Z := if u <? 2 ^ 31 then u else u - 2 ^ 32.

(** ** Reference reading of the command layout *)

(** The two bytes each command code puts on the wire. *)
Definition code_bytes (c : CMD) : list byte :=
  match c with
  | RESET_FPGA_CMD_CODE => [x01; x00]
  | RESET_AR_DEV_CMD_CODE => [x02; x00]
  | CONFIG_FPGA_GEN_CMD_CODE => [x03; x00]
  | CONFIG_EEPROM_CMD_CODE => [x04; x00]
  | RECORD_START_CMD_CODE => [x05; x00]
  | RECORD_STOP_CMD_CODE => [x06; x00]
  | PLAYBACK_START_CMD_CODE => [x07; x00]
  | PLAYBACK_STOP_CMD_CODE => [x08; x00]
  | SYSTEM_CONNECT_CMD_CODE => [x09; x00]
  | SYSTEM_ERROR_CMD_CODE => [x0a; x00]
  | CONFIG_PACKET_DATA_CMD_CODE => [x0b; x00]
  | CONFIG_DATA_MODE_AR_DEV_CMD_CODE => [x0c; x00]
  | INIT_FPGA_PLAYBACK_CMD_CODE => [x0d; x00]
  | READ_FPGA_VERSION_CMD_CODE => [x0e; x00]
  end.

Definition header_bytes : list byte := [x5a; xa5].
Definition footer_bytes : list byte := [xaa; xee].

(** The length field of a typed message: bytes 4 and 5, little-endian. *)
Definition length_field (message : list byte) : Z :=
  Bytes.from_little (Bytes.slice 4 6 message).

(** ** The synthetic packet sequence of the specification's test

    Sequence numbers 1 to 540 in order; packet [i] announces
    [i * BYTES_IN_PACKET] bytes, except the last, whose byte count is given. *)

Definition numbered (payload : Z -> list Z) (i : Z) : packet :=
  mkPacket i (i * BYTES_IN_PACKET) (payload i).

Definition synthetic_sequence (payload : Z -> list Z) (last_byte_count : Z)
  : list packet :=
  map (fun i => numbered payload (Z.of_nat i))
      (seq 1 (Z.to_nat PACKETS_IN_FRAME_CLIPPED - 1))
  ++ [mkPacket PACKETS_IN_FRAME_CLIPPED last_byte_count
        (payload PACKETS_IN_FRAME_CLIPPED)].

(** ** Sample inputs *)

(** A full-size payload whose every sample is [w]. *)
Definition constant_payload (w : Z) : list Z :=
  repeat w (Z.to_nat UINT16_IN_PACKET).

(** The packet that opens a capture: sequence number 1, no byte sent yet. *)
Definition sample_start : packet := mkPacket 1 0 (constant_payload 257).

(** A packet inside a frame: sequence number 2, one packet sent before it. *)
Definition sample_inner : packet :=
  mkPacket 2 BYTES_IN_PACKET (constant_payload 514).

(** A packet on the next frame boundary: one clipped frame sent before it. *)
Definition sample_closing : packet :=
  mkPacket 541 BYTES_IN_FRAME_CLIPPED (constant_payload 771).

(** The sequence of the specification's test with packet [i] carrying
    samples all equal to [i], the last byte count being one clipped frame. *)
Definition sample_synthetic : list packet :=
  synthetic_sequence (fun i => constant_payload i) BYTES_IN_FRAME_CLIPPED.

(** A frame's start, 540 copies of a packet of its inside, and the packet
    on the next boundary: 542 packets from the start to the end. *)
Definition sample_overlong : list packet :=
  sample_start :: repeat sample_inner 540 ++ [sample_closing].

(** The datagram of [sample_start]: sequence number 1, byte count 0 and
    1456 bytes of payload. *)
Definition sample_start_datagram : list byte :=
  [x01; x00; x00; x00; x00; x00; x00; x00; x00; x00] ++ repeat x01 1456.

(** The datagram of [sample_closing]: sequence number 541, byte count
    786240 and 1456 bytes of payload. *)
Definition sample_closing_datagram : list byte :=
  [x1d; x02; x00; x00; x40; xff; x0b; x00; x00; x00] ++ repeat x03 1456.

(** A frame's start and the next boundary, nothing between them received. *)
Definition sample_events : list recv_event :=
  [Datagram sample_start_datagram; Datagram sample_closing_datagram].

(** The datagram of [sample_inner]: sequence number 2, byte count 1456 and
    1456 bytes of payload. *)
Definition sample_inner_datagram : list byte :=
  [x02; x00; x00; x00; xb0; x05; x00; x00; x00; x00] ++ repeat x02 1456.

(** A stray packet, a frame's start and a packet of its inside. *)
Definition sample_opening : list recv_event :=
  [Datagram sample_inner_datagram; Datagram sample_start_datagram;
   Datagram sample_inner_datagram].

(** The hexadecimal text of [n] zero bytes. *)
Fixpoint zeros_hex (n : nat) : string :=
  match n with
  | O => EmptyString
  | S n' => String "0" (String "0" (zeros_hex n'))
  end.

From Stdlib Require Import Permutation.

(** ** The content of a frame buffer, slot by slot *)

(** The samples of slot [k]: [ret_frame[k * UINT16_IN_PACKET :
    (k + 1) * UINT16_IN_PACKET]]. *)
Definition slot_content (buf : list Z) (k : Z) : list Z :=
  Np.getslice buf (k * UINT16_IN_PACKET) ((k + 1) * UINT16_IN_PACKET).

(** What a payload leaves in the slot it is assigned to: itself when it has
    the slot's length, its one sample repeated when it has one sample;
    [None] when numpy refuses the assignment. *)
Definition placed (v : list Z) : option (list Z) :=
  if Nat.eqb (List.length v) (Z.to_nat UINT16_IN_PACKET) then Some v
  else if Nat.eqb (List.length v) 1 then
    Some (repeat (hd 0 v) (Z.to_nat UINT16_IN_PACKET))
  else None.

(** The samples the last packet of [ps] aimed at slot [k] leaves there,
    among the packets whose payload numpy accepts; [None] when there is no
    such packet. *)
Fixpoint last_placed (k : Z) (ps : list packet) : option (list Z) :=
  match ps with
  | [] => None
  | p :: ps' =>
    match last_placed k ps' with
    | Some w => Some w
    | None => if slot_of p =? k then placed (packet_data p) else None
    end
  end.

(** The events [evs] are datagrams that decode, in order, to the packets
    [ps]. *)
Definition decoded (evs : list recv_event) (ps : list packet) : Prop :=
  map _read_data_packet evs = map Some ps.

(** The samples a frame holds past its clipped part are the ones from
    index [wordsPerClippedFrame] on. *)
Definition tail_zero (buf : list Z) : Prop :=
  forall i : nat, wordsPerClippedFrame <= Z.of_nat i -> nth i buf 0 = 0.

(** What slot [k] of an emitted frame holds, given the payload [w0] the
    starting packet placed and the packets [mid] that followed it. *)
Definition expected_slot (w0 : list Z) (mid : list packet) (k : Z) : list Z :=
  match last_placed k mid with
  | Some w => w
  | None => if k =? 0 then w0 else repeat 0 (Z.to_nat UINT16_IN_PACKET)
  end.

(** The loss count of a frame closed after [n] packets off a boundary
    followed its start. *)
Definition reported_lost (n : nat) : Z :=
  PACKETS_IN_FRAME_CLIPPED
  - ((1 + Z.of_nat n) mod (PACKETS_IN_FRAME_CLIPPED + 1) + 1).

(** A datagram of the nominal size: the 10-byte header and
    [BYTES_IN_PACKET] bytes of samples. Other events are a timeout or an
    error of the socket. *)
Definition nominal (ev : recv_event) : Prop :=
  match ev with
  | Datagram data => Z.of_nat (List.length data) = 10 + BYTES_IN_PACKET
  | SocketTimeout => True
  | SocketError => True
  end.

(** ** The first frame of a capture, as the device numbers its packets

    Packet [i] of a capture that starts at byte 0 has sequence number [i]
    and announces the [(i - 1) * BYTES_IN_PACKET] bytes sent before it:
    packet 1 sits on a frame boundary, and so does packet 541, the first of
    the second frame. *)

Definition stream_packet (payload : Z -> list Z) (i : Z) : packet :=
  mkPacket i ((i - 1) * BYTES_IN_PACKET) (payload i).

(** Packets [a], [a + 1], ..., [a + n - 1], in order. *)
Definition stream_packets (payload : Z -> list Z) (a n : nat) : list packet :=
  map (fun i => stream_packet payload (Z.of_nat i)) (seq a n).

(** Packets 2 to 540 as the transport delivers them: in order, without
    those [arrived] says were lost. *)
Definition delivered (payload : Z -> list Z) (arrived : Z -> bool)
  : list packet :=
  filter (fun p => arrived (packet_num p)) (stream_packets payload 2 539).

(** The first frame as received: packet 1, the packets delivered among 2 to
    540, and packet 541. *)
Definition first_frame_received (payload : Z -> list Z) (arrived : Z -> bool)
  : list packet :=
  stream_packet payload 1 :: delivered payload arrived
  ++ [stream_packet payload 541].

(** How many of packets 2 to 540 were lost. *)
Definition missing (arrived : Z -> bool) : nat :=
  List.length (filter (fun i => negb (arrived (Z.of_nat i))) (seq 2 539)).

(** ** [DCA1000.send_command] and [DCA1000.configure] on the control socket
    (lines 94-140) *)

(** What [config_socket.recvfrom(4096)] does on one call: it returns a
    response, or raises [socket.timeout]. *)
Inductive reply : Type :=
| Response (response : list byte)
| ResponseTimeout.

(** The control socket: the replies still to come and the messages sent so
    far. A socket with nothing more to come times out. *)
Record channel : Type := mkChannel {
  pending : list reply;
  sent : list (list byte)
}.

(** The exceptions that leave [send_command] and [configure]. *)
Inductive raised : Type :=
| ValueError
| AttributeError.

(** What [send_command] returns: the response, or the text of line 115. *)
Inductive command_result : Type :=
| ReturnedBytes (response : list byte)
| ReturnedStr (text : string).

(** A computation on the control socket that returns a value or raises. *)
Definition control (A : Type) : Type := channel -> (A + raised) * channel.

Definition ret {A : Type} (a : A) : control A := fun ch => (inl a, ch).

Definition raise {A : Type} (e : raised) : control A := fun ch => (inr e, ch).

Definition bind {A B : Type} (m : control A) (k : A -> control B)
  : control B :=
  fun ch =>
    match m ch with
    | (inl a, ch') => k a ch'
    | (inr e, ch') => (inr e, ch')
    end.

Notation "x <- m ;; k" := (bind m (fun x => k))
  (at level 61, m at next level, right associativity).
Notation "m ;;; k" := (bind m (fun _ => k))
  (at level 61, right associativity).

(** [config_socket.sendto(message, cfg_dest)] on an open socket, for a
    message that fits a datagram. A message over the datagram's limit of
    65507 bytes, which the socket refuses, is outside this definition. *)
Definition sendto (message : list byte) : control unit :=
  fun ch => (inl tt, mkChannel (pending ch) (sent ch ++ [message])).

(** [config_socket.recvfrom(4096)]. *)
Definition recvfrom : control reply :=
  fun ch =>
    match pending ch with
    | [] => (inl ResponseTimeout, ch)
    | r :: rest => (inl r, mkChannel rest (sent ch))
    end.

(** Lines 94-115. *)
Definition send_command (cmd : cmd_arg) (length params : string)
  : control command_result :=
  match send_command_message cmd length params with
  | None => raise ValueError
  | Some message =>
    sendto message ;;;
    r <- recvfrom ;;
    match r with
    | Response response => ret (ReturnedBytes response)
    | ResponseTimeout => ret (ReturnedStr "Error: Command response timed out.")
    end
  end.

(** [print(x.hex())]: [bytes] has a [hex] method, [str] has none. *)
Definition print_hex (x : command_result) : control unit :=
  match x with
  | ReturnedBytes _ => ret tt
  | ReturnedStr _ => raise AttributeError
  end.

(** Lines 117-140. *)
Definition configure : control unit :=
  x <- send_command (OfCMD SYSTEM_CONNECT_CMD_CODE) "0000" "" ;;
  print_hex x ;;;
  x <- send_command (OfCMD READ_FPGA_VERSION_CMD_CODE) "0000" "" ;;
  print_hex x ;;;
  x <- send_command (OfCMD CONFIG_FPGA_GEN_CMD_CODE) "0600" "01020102031e" ;;
  print_hex x ;;;
  x <- send_command (OfCMD CONFIG_PACKET_DATA_CMD_CODE) "0600" "be05350c0000" ;;
  print_hex x ;;;
  x <- send_command (OfCMD RECORD_START_CMD_CODE) "0000" "" ;;
  print_hex x.

(** The five messages of [configure]: the four its comments spell, and
    record-start with the default length and params. *)
Definition configure_messages : list (list byte) :=
  [ [x5a; xa5; x09; x00; x00; x00; xaa; xee];
    [x5a; xa5; x0e; x00; x00; x00; xaa; xee];
    [x5a; xa5; x03; x00; x06; x00; x01; x02; x01; x02; x03; x1e; xaa; xee];
    [x5a; xa5; x0b; x00; x06; x00; xbe; x05; x35; x0c; x00; x00; xaa; xee];
    [x5a; xa5; x05; x00; x00; x00; xaa; xee] ].

(** How many responses come before the first timeout. *)
Fixpoint answered (replies : list reply) : nat :=
  match replies with
  | Response _ :: rest => S (answered rest)
  | _ => O
  end.

(** ** The capture probe ([check.py]) *)

(** A captured packet as the probe looks at it: with a UDP layer, whose
    length field [int(udp_layer.length)] is given, or without one, in which
    case [packet.udp] raises [AttributeError]. *)
Inductive captured : Type :=
| WithUdp (length : Z)
| WithoutUdp.

(** [capture_udp_packets] (lines 3-29), on the packets captured. *)
Fixpoint capture_udp_packets (capture : list captured) : list Z :=
  match capture with
  | [] => []
  | WithUdp length :: rest =>
    let payload_size := length - 8 in
    payload_size :: capture_udp_packets rest
  | WithoutUdp :: rest => capture_udp_packets rest
  end.

(** Python's [max] of a non-empty list. *)
Definition py_max (x : Z) (rest : list Z) : Z := fold_left Z.max rest x.

(** Lines 37-45: the two sizes printed, or [None] for
    ["No UDP packets captured."]. *)
Definition probe_sizes (capture : list captured) : option (Z * Z) :=
  match capture_udp_packets capture with
  | [] => None
  | x :: rest =>
    let max_packet_size := py_max x rest + 8 in
    let bytes_in_packet := py_max x rest in
    Some (max_packet_size, bytes_in_packet)
  end.

(** ** [read] as one loop over the assembler

    Receive a packet, hand it to the assembler, and go on until it emits a
    frame, nothing is received, or it raises. *)
Fixpoint read_by_ingest (self : session) (st : state)
  (evs : list recv_event) : read_result * session :=
  match evs with
  | [] => (ReturnNone, self)
  | ev :: evs' =>
    match _read_data_packet ev with
    | None => (ReturnNone, self)
    | Some p =>
      match ingest st p with
      | Raised => (RaiseValueError, self)
      | Step _ (FrameReady frame lost) =>
        (ReturnFrame frame, mkSession (Some lost))
      | Step st' NeedMore => read_by_ingest self st' evs'
      end
    end
  end.

(** ** Successive calls of [read] on one session *)

(** [DCA1000.__init__] (line 87), for the attribute [read] assigns. *)
Definition init : session := mkSession None.

(** Calls of [read] one after the other, each with the events the data
    socket gives during it. An exception is taken to be caught by the
    caller, who goes on with the next call. *)
Definition reads (self : session) (calls : list (list recv_event)) : session :=
  fold_left (fun s evs => snd (read s evs)) calls self.

(** The loss count of the frame a call returns, when it returns one. *)
Definition returned_lost (evs : list recv_event) : option Z :=
  match read init evs with
  | (ReturnFrame _, s') => lost_packets s'
  | (ReturnNone, _) => None
  | (RaiseValueError, _) => None
  end.

(** The loss count of the last call that returned a frame. *)
Fixpoint last_returned_lost (calls : list (list recv_event)) : option Z :=
  match calls with
  | [] => None
  | evs :: rest =>
    match last_returned_lost rest with
    | Some lost => Some lost
    | None => returned_lost evs
    end
  end.
(** * Properties *)

(** ** The frame geometry of the default configuration *)

Lemma BYTES_IN_FRAME_eq : BYTES_IN_FRAME = 786432.
Proof. reflexivity. Qed.

Lemma BYTES_IN_FRAME_CLIPPED_eq : BYTES_IN_FRAME_CLIPPED = 786240.
Proof. reflexivity. Qed.

Lemma PACKETS_IN_FRAME_CLIPPED_eq : PACKETS_IN_FRAME_CLIPPED = 540.
Proof. reflexivity. Qed.

Lemma UINT16_IN_PACKET_eq : UINT16_IN_PACKET = 728.
Proof. reflexivity. Qed.

Lemma UINT16_IN_FRAME_eq : UINT16_IN_FRAME = 393216.
Proof. reflexivity. Qed.

Lemma wordsPerClippedFrame_eq : wordsPerClippedFrame = 393120.
Proof. reflexivity. Qed.

(** ** Header decoding *)

Lemma to_Z_range (b : byte) : 0 <= Bytes.to_Z b <= 255.
Proof.
  unfold Bytes.to_Z. pose proof (Byte.to_N_bounded b). lia.
Qed.

Lemma unpack_lt_1l_header (b0 b1 b2 b3 : byte) (rest : list byte) :
  let d := b0 :: b1 :: b2 :: b3 :: rest in
  Struct.unpack_lt_1l (firstn 4 d) = Some (as_int32 (little_endian_sum d 0 4)).
Proof.
  cbv [Struct.unpack_lt_1l firstn List.length Nat.eqb Bytes.from_little
       little_endian_sum byte_at nth Nat.add as_int32].
  cbv beta iota zeta. simpl Z.of_nat.
  replace (Bytes.to_Z b0 + 256 * (Bytes.to_Z b1 + 256 *
            (Bytes.to_Z b2 + 256 * (Bytes.to_Z b3 + 256 * 0))))
    with (0 + Bytes.to_Z b0 * 256 ^ 0 + Bytes.to_Z b1 * 256 ^ 1
          + Bytes.to_Z b2 * 256 ^ 2 + Bytes.to_Z b3 * 256 ^ 3) by lia.
  reflexivity.
Qed.

Lemma unpack_gt_Q_header (b0 b1 b2 b3 b4 b5 b6 b7 b8 b9 : byte)
  (rest : list byte) :
  let d := b0 :: b1 :: b2 :: b3 :: b4 :: b5 :: b6 :: b7 :: b8 :: b9 :: rest in
  Struct.unpack_gt_Q ([x00; x00] ++ rev (Bytes.slice 4 10 d))
  = Some (little_endian_sum d 4 6).
Proof.
  cbv [Struct.unpack_gt_Q Bytes.slice firstn skipn Nat.sub rev app List.length
       Nat.eqb Bytes.from_big fold_left little_endian_sum byte_at nth Nat.add].
  cbv beta iota zeta. simpl Z.of_nat.
  f_equal. change (Bytes.to_Z x00) with 0. lia.
Qed.

Lemma byte_count_range (d : list byte) :
  0 <= little_endian_sum d 4 6 < 2 ^ 48.
Proof.
  cbv [little_endian_sum byte_at Nat.add]. simpl Z.of_nat.
  pose proof (to_Z_range (nth 4 d x00)). pose proof (to_Z_range (nth 5 d x00)).
  pose proof (to_Z_range (nth 6 d x00)). pose proof (to_Z_range (nth 7 d x00)).
  pose proof (to_Z_range (nth 8 d x00)). pose proof (to_Z_range (nth 9 d x00)).
  lia.
Qed.

Lemma decode_header_ten (d : list byte) :
  (10 <= List.length d)%nat ->
  decode_header d
  = Some (as_int32 (little_endian_sum d 0 4), little_endian_sum d 4 6).
Proof.
  intros Hlen.
  do 10 (destruct d as [|? d]; [simpl in Hlen; lia|]).
  unfold decode_header.
  rewrite (unpack_lt_1l_header b b0 b1 b2).
  rewrite (unpack_gt_Q_header b b0 b1 b2 b3 b4 b5 b6 b7 b8).
  reflexivity.
Qed.

(** C9: for a datagram of at least 10 bytes the two header reads succeed;
    the sequence number is the signed little-endian int32 of bytes 0..3, and
    the byte count, read big-endian from two zero bytes followed by bytes
    4..9 reversed, is the sum of [d[4+k] * 256^k] for [k] in 0..5, hence
    within [0, 2^48); these are the fields of every packet
    [_read_data_packet] returns for it. *)
Theorem header_decode_values (d : list byte) :
  (10 <= List.length d)%nat ->
  Struct.unpack_lt_1l (firstn 4 d) = Some (as_int32 (little_endian_sum d 0 4))
  /\ Struct.unpack_gt_Q ([x00; x00] ++ rev (Bytes.slice 4 10 d))
     = Some (little_endian_sum d 4 6)
  /\ 0 <= little_endian_sum d 4 6 < 2 ^ 48
  /\ decode_header d
     = Some (as_int32 (little_endian_sum d 0 4), little_endian_sum d 4 6)
  /\ forall p, _read_data_packet (Datagram d) = Some p ->
       packet_num p = as_int32 (little_endian_sum d 0 4)
       /\ byte_count p = little_endian_sum d 4 6.
Proof.
  intros Hlen.
  pose proof (decode_header_ten d Hlen) as Hd.
  split; [|split; [|split; [apply byte_count_range|split; [exact Hd|]]]].
  - do 4 (destruct d as [|? d]; [simpl in Hlen; lia|]).
    apply unpack_lt_1l_header.
  - do 10 (destruct d as [|? d]; [simpl in Hlen; lia|]).
    apply unpack_gt_Q_header.
  - intros p Hp. unfold _read_data_packet in Hp. rewrite Hd in Hp.
    destruct (Np.frombuffer_uint16 (skipn 10 d)); inversion Hp; split; reflexivity.
Qed.

Lemma sample_closing_datagram_length :
  (10 <= List.length sample_closing_datagram)%nat.
Proof.
  unfold sample_closing_datagram. rewrite length_app, repeat_length.
  cbn [List.length]. lia.
Qed.

Lemma header_decode_values_witness :
  (10 <= List.length sample_closing_datagram)%nat
  /\ decode_header sample_closing_datagram = Some (541, 786240).
Proof.
  split; [apply sample_closing_datagram_length|].
  destruct (header_decode_values sample_closing_datagram
              sample_closing_datagram_length) as [_ [_ [_ [Hd _]]]].
  rewrite Hd. vm_compute. reflexivity.
Defined.

(** ** The command message *)

Lemma fromhex_app_aux (b : string) (y : list byte) :
  Bytes.fromhex b = Some y ->
  forall a : string,
    (forall x, Bytes.fromhex a = Some x ->
               Bytes.fromhex (a ++ b) = Some (x ++ y)%list)
    /\ (forall c x, Bytes.fromhex (String c a) = Some x ->
                    Bytes.fromhex (String c a ++ b) = Some (x ++ y)%list).
Proof.
  intros Hb. induction a as [|d a [IH1 IH2]].
  - split.
    + intros x Hx. simpl in Hx. inversion Hx. exact Hb.
    + intros c x Hx. simpl in *. destruct (Bytes.is_space c).
      * inversion Hx. exact Hb.
      * destruct (Bytes.hex_digit c); discriminate.
  - split.
    + apply IH2.
    + intros c x Hx.
      change (String c (String d a) ++ b)%string
        with (String c (String d (a ++ b))).
      cbn [Bytes.fromhex] in *.
      destruct (Bytes.is_space c).
      * apply (IH2 d x) in Hx. exact Hx.
      * destruct (Bytes.hex_digit c); [|discriminate].
        destruct (Bytes.hex_digit d); [|discriminate].
        destruct (Bytes.fromhex a) as [r|] eqn:Ha; [|discriminate].
        rewrite (IH1 r eq_refl). inversion Hx. reflexivity.
Qed.

(** [bytes.fromhex] of a concatenation of two texts it accepts. *)
Lemma fromhex_app (a b : string) (x y : list byte) :
  Bytes.fromhex a = Some x -> Bytes.fromhex b = Some y ->
  Bytes.fromhex (a ++ b) = Some (x ++ y)%list.
Proof.
  intros Ha Hb. destruct (fromhex_app_aux b y Hb a) as [H _]. auto.
Qed.

Lemma fromhex_value (c : CMD) : Bytes.fromhex (value c) = Some (code_bytes c).
Proof. destruct c; reflexivity. Qed.

(** C4 (as the code has it): a typed command is laid out as header, code,
    the caller's length text, params and footer; the length field is what
    the caller passed, and nothing fails for the size of params. *)
Theorem send_command_message_layout (c : CMD) (length params : string)
  (lb pb : list byte) :
  Bytes.fromhex length = Some lb ->
  Bytes.fromhex params = Some pb ->
  send_command_message (OfCMD c) length params
  = Some (header_bytes ++ code_bytes c ++ lb ++ pb ++ footer_bytes)%list.
Proof.
  intros Hl Hp. unfold send_command_message.
  apply (fromhex_app CONFIG_HEADER _ header_bytes); [reflexivity|].
  apply fromhex_app; [apply fromhex_value|].
  apply fromhex_app; [exact Hl|].
  apply fromhex_app; [exact Hp|reflexivity].
Qed.

Lemma send_command_message_layout_witness :
  Bytes.fromhex "0600" = Some [x06; x00]
  /\ Bytes.fromhex "01020102031e" = Some [x01; x02; x01; x02; x03; x1e]
  /\ send_command_message (OfCMD CONFIG_FPGA_GEN_CMD_CODE) "0600" "01020102031e"
     = Some (header_bytes ++ code_bytes CONFIG_FPGA_GEN_CMD_CODE ++ [x06; x00]
             ++ [x01; x02; x01; x02; x03; x1e] ++ footer_bytes)%list.
Proof.
  split; [reflexivity|]. split; [reflexivity|].
  apply (send_command_message_layout CONFIG_FPGA_GEN_CMD_CODE
           "0600" "01020102031e"); reflexivity.
Defined.

(** The length field is not computed from params: with the default length
    text a command that carries six bytes of params announces none. *)
Lemma send_command_length_field_not_len_params :
  exists message pb,
    send_command_message (OfCMD CONFIG_FPGA_GEN_CMD_CODE) "0000" "01020102031e"
    = Some message
    /\ Bytes.fromhex "01020102031e" = Some pb
    /\ length_field message = 0
    /\ Z.of_nat (List.length pb) = 6
    /\ length_field message <> Z.of_nat (List.length pb).
Proof.
  eexists. eexists. repeat split; try reflexivity.
  vm_compute. discriminate.
Qed.

Lemma fromhex_zeros_hex (n : nat) :
  Bytes.fromhex (zeros_hex n) = Some (repeat x00 n).
Proof.
  induction n as [|n IH]; [reflexivity|].
  cbn [zeros_hex Bytes.fromhex]. rewrite IH. reflexivity.
Qed.

(** Params of any size are accepted, past 65535 bytes as well: nothing
    compares their length with what the length field can hold. *)
Lemma send_command_any_size (c : CMD) (n : nat) :
  send_command_message (OfCMD c) "0000" (zeros_hex n)
  = Some (header_bytes ++ code_bytes c ++ [x00; x00] ++ repeat x00 n
          ++ footer_bytes)%list.
Proof.
  unfold send_command_message.
  apply (fromhex_app CONFIG_HEADER _ header_bytes); [reflexivity|].
  apply fromhex_app; [apply fromhex_value|].
  apply (fromhex_app "0000" _ [x00; x00]); [reflexivity|].
  apply fromhex_app; [apply fromhex_zeros_hex|reflexivity].
Qed.

(** ** Slices of arrays *)

Lemma clip_range (n i : Z) : 0 <= n -> 0 <= Np.clip n i <= n.
Proof. unfold Np.clip. destruct (i <? 0) eqn:E; lia. Qed.

Lemma clip_inside (n i : Z) : 0 <= i <= n -> Np.clip n i = i.
Proof. unfold Np.clip. destruct (i <? 0) eqn:E; lia. Qed.

Lemma length_zeros (n : Z) : List.length (Np.zeros n) = Z.to_nat n.
Proof. unfold Np.zeros. apply repeat_length. Qed.

(** An assignment to a slice never changes the array's length. *)
Lemma setslice_length (arr : list Z) (start stop : Z) (v arr' : list Z) :
  Np.setslice arr start stop v = Some arr' ->
  List.length arr' = List.length arr.
Proof.
  unfold Np.setslice.
  set (n := Z.of_nat (List.length arr)).
  assert (Hn : 0 <= n) by (unfold n; lia).
  pose proof (clip_range n start Hn) as Hlo.
  pose proof (clip_range n stop Hn) as Hhi.
  set (lo := Np.clip n start) in *. set (hi := Z.max lo (Np.clip n stop)).
  assert (Hh : lo <= hi <= n) by (unfold hi; lia).
  destruct (Nat.eqb_spec (List.length v) (Z.to_nat (hi - lo))) as [E|E].
  - intros H. inversion H; subst arr'.
    rewrite !length_app, length_firstn, length_skipn. lia.
  - destruct (Nat.eqb_spec (List.length v) 1) as [E1|E1]; [|discriminate].
    intros H. inversion H; subst arr'.
    rewrite !length_app, length_firstn, length_skipn, repeat_length. lia.
Qed.

(** Copying a value of the slice's length into a slice inside the array. *)
Lemma setslice_exact (arr : list Z) (start stop : Z) (v : list Z) :
  0 <= start <= stop -> stop <= Z.of_nat (List.length arr) ->
  List.length v = Z.to_nat (stop - start) ->
  Np.setslice arr start stop v
  = Some (firstn (Z.to_nat start) arr ++ v ++ skipn (Z.to_nat stop) arr).
Proof.
  intros H1 H2 Hv. unfold Np.setslice.
  rewrite (clip_inside _ start) by lia.
  rewrite (clip_inside _ stop) by lia.
  rewrite Z.max_r by lia.
  rewrite Hv, Nat.eqb_refl. reflexivity.
Qed.

(** A value whose length is neither the slice's nor 1 is refused. *)
Lemma setslice_refused (arr : list Z) (start stop : Z) (v : list Z) :
  0 <= start <= stop -> stop <= Z.of_nat (List.length arr) ->
  List.length v <> Z.to_nat (stop - start) -> List.length v <> 1%nat ->
  Np.setslice arr start stop v = None.
Proof.
  intros H1 H2 Hv Hv1. unfold Np.setslice.
  rewrite (clip_inside _ start) by lia.
  rewrite (clip_inside _ stop) by lia.
  rewrite Z.max_r by lia.
  destruct (Nat.eqb_spec (List.length v) (Z.to_nat (stop - start))); [lia|].
  destruct (Nat.eqb_spec (List.length v) 1); [lia|reflexivity].
Qed.

(** Reading back the slice that was just assigned. *)
Lemma getslice_written (arr : list Z) (start stop : Z) (v : list Z) :
  0 <= start <= stop -> stop <= Z.of_nat (List.length arr) ->
  List.length v = Z.to_nat (stop - start) ->
  Np.getslice (firstn (Z.to_nat start) arr ++ v ++ skipn (Z.to_nat stop) arr)
    start stop = v.
Proof.
  intros H1 H2 Hv. unfold Np.getslice.
  assert (Hl : List.length (firstn (Z.to_nat start) arr ++ v
                            ++ skipn (Z.to_nat stop) arr)
               = List.length arr).
  { rewrite !length_app, length_firstn, length_skipn. lia. }
  rewrite Hl.
  rewrite (clip_inside _ start) by lia.
  rewrite (clip_inside _ stop) by lia.
  rewrite Z.max_r by lia.
  unfold Bytes.slice.
  rewrite skipn_app.
  rewrite skipn_all2 by (rewrite length_firstn; lia).
  rewrite length_firstn.
  replace (Z.to_nat start - Nat.min (Z.to_nat start) (List.length arr))%nat
    with 0%nat by lia.
  cbn [skipn app].
  rewrite firstn_app.
  replace (Z.to_nat stop - Z.to_nat start - List.length v)%nat with 0%nat by lia.
  cbn [firstn]. rewrite app_nil_r.
  apply firstn_all2. lia.
Qed.

(** A slice of a zeroed array is zeroed. *)
Lemma getslice_zeros (n start stop : Z) :
  0 <= start <= stop -> stop <= n ->
  Np.getslice (Np.zeros n) start stop = repeat 0 (Z.to_nat (stop - start)).
Proof.
  intros H1 H2. unfold Np.getslice. rewrite length_zeros.
  rewrite Z2Nat.id by lia.
  rewrite (clip_inside _ start) by lia.
  rewrite (clip_inside _ stop) by lia.
  rewrite Z.max_r by lia.
  unfold Bytes.slice, Np.zeros.
  replace (Z.to_nat n)
    with (Z.to_nat start + ((Z.to_nat stop - Z.to_nat start)
                            + (Z.to_nat n - Z.to_nat stop)))%nat by lia.
  rewrite !repeat_app.
  rewrite skipn_app, skipn_all2 by (rewrite repeat_length; lia).
  rewrite repeat_length, Nat.sub_diag. cbn [skipn app].
  rewrite firstn_app, repeat_length, Nat.sub_diag. cbn [firstn].
  rewrite app_nil_r, firstn_all2 by (rewrite repeat_length; lia).
  f_equal. lia.
Qed.

Lemma zeros_uint16 (n : Z) : Forall uint16 (Np.zeros n).
Proof.
  apply Forall_forall. intros x Hx. unfold Np.zeros in Hx.
  apply repeat_spec in Hx. subst x. unfold uint16. lia.
Qed.

(** The frame buffer has 393216 samples: it is reasoned about through the
    lemmas above and never unfolded. *)
#[global] Opaque Np.zeros.

(** ** One packet *)

Lemma seek_body_discard (buf : list Z) (p : packet) :
  boundary p = false -> seek_body buf p = SeekAgain.
Proof. unfold boundary, seek_body. intros ->. reflexivity. Qed.

Lemma seek_body_start (buf : list Z) (p : packet) :
  boundary p = true ->
  List.length (packet_data p) = Z.to_nat UINT16_IN_PACKET ->
  UINT16_IN_PACKET <= Z.of_nat (List.length buf) ->
  seek_body buf p
  = SeekBreak (packet_data p ++ skipn (Z.to_nat UINT16_IN_PACKET) buf) 1.
Proof.
  unfold boundary, seek_body. intros -> Hlen Hbuf.
  pose proof UINT16_IN_PACKET_eq as HU.
  rewrite setslice_exact; [reflexivity|lia|lia|].
  rewrite Hlen, Z.sub_0_r. reflexivity.
Qed.

Lemma accumulate_body_boundary (buf : list Z) (pr : Z) (p : packet) :
  boundary p = true ->
  accumulate_body buf pr p
  = AccReturn buf (PACKETS_IN_FRAME_CLIPPED - (pr + 1)).
Proof. unfold boundary, accumulate_body. intros ->. reflexivity. Qed.

Lemma accumulate_body_again (buf : list Z) (pr : Z) (p : packet) :
  boundary p = false ->
  accumulate_body buf pr p
  = AccAgain
      (try_write buf ((packet_num p - 1) mod PACKETS_IN_FRAME_CLIPPED)
                 (packet_data p))
      (wrap_counter (pr + 1)).
Proof. unfold boundary, accumulate_body. intros ->. reflexivity. Qed.

Lemma try_write_length (buf : list Z) (idx : Z) (v : list Z) :
  List.length (try_write buf idx v) = List.length buf.
Proof.
  unfold try_write.
  destruct (Np.setslice buf _ _ v) eqn:E; [|reflexivity].
  eapply setslice_length; eassumption.
Qed.

(** The slot of any sequence number lies inside the frame. *)
Lemma slot_in_range (n : Z) :
  0 <= (n - 1) mod PACKETS_IN_FRAME_CLIPPED < PACKETS_IN_FRAME_CLIPPED.
Proof.
  apply Z.mod_pos_bound. rewrite PACKETS_IN_FRAME_CLIPPED_eq. lia.
Qed.

Lemma wrap_counter_mod (pr : Z) :
  0 <= pr <= PACKETS_IN_FRAME_CLIPPED ->
  wrap_counter (pr + 1) = (pr + 1) mod (PACKETS_IN_FRAME_CLIPPED + 1).
Proof.
  intros H. unfold wrap_counter.
  destruct (pr + 1 >? PACKETS_IN_FRAME_CLIPPED) eqn:E.
  - assert (pr = PACKETS_IN_FRAME_CLIPPED) by lia. subst pr.
    rewrite Z.mod_same; lia.
  - rewrite Z.mod_small; lia.
Qed.

Lemma wrap_counter_range (n : Z) :
  0 <= n -> 0 <= wrap_counter n <= PACKETS_IN_FRAME_CLIPPED.
Proof.
  intros H. unfold wrap_counter. pose proof PACKETS_IN_FRAME_CLIPPED_eq.
  destruct (n >? PACKETS_IN_FRAME_CLIPPED) eqn:E; lia.
Qed.

(** ** Sequences of packets *)

Lemma frames_repeat_NeedMore (n : nat) : frames (repeat NeedMore n) = [].
Proof. induction n; simpl; auto. Qed.

Lemma feed_app (st : state) (a b : list packet) :
  feed st (a ++ b)
  = match feed st a with
    | Some (st', es) =>
      match feed st' b with
      | Some (st'', es') => Some (st'', es ++ es')
      | None => None
      end
    | None => None
    end.
Proof.
  revert st. induction a as [|p a IH]; intros st.
  - simpl. destruct (feed st b) as [[? ?]|]; reflexivity.
  - cbn [app feed]. destruct (ingest st p) as [st' e|]; [|reflexivity].
    rewrite IH. destruct (feed st' a) as [[st1 es]|]; [|reflexivity].
    destruct (feed st1 b) as [[st2 es']|]; reflexivity.
Qed.

(** While seeking, packets off a frame boundary are discarded. *)
Lemma feed_seeking_discard (pre : list packet) :
  Forall (fun p => boundary p = false) pre ->
  feed SeekingStart pre
  = Some (SeekingStart, repeat NeedMore (List.length pre)).
Proof.
  induction 1 as [|p pre Hp _ IH]; [reflexivity|].
  cbn [feed ingest]. rewrite (seek_body_discard _ _ Hp), IH. reflexivity.
Qed.

(** While accumulating, packets off a frame boundary keep the machine
    accumulating; the counter advances modulo one more than the frame's
    packet count, and the buffer keeps its length. *)
Lemma feed_accumulating (mid : list packet) :
  Forall (fun p => boundary p = false) mid ->
  forall (buf : list Z) (pr : Z),
    0 <= pr <= PACKETS_IN_FRAME_CLIPPED ->
    exists buf',
      feed (Accumulating buf pr) mid
      = Some (Accumulating buf'
                ((pr + Z.of_nat (List.length mid))
                   mod (PACKETS_IN_FRAME_CLIPPED + 1)),
              repeat NeedMore (List.length mid))
      /\ List.length buf' = List.length buf.
Proof.
  pose proof PACKETS_IN_FRAME_CLIPPED_eq as HP.
  induction 1 as [|p mid Hp _ IH]; intros buf pr Hpr.
  - exists buf. cbn [feed List.length repeat].
    rewrite Z.add_0_r, Z.mod_small by lia. split; reflexivity.
  - cbn [feed ingest]. rewrite (accumulate_body_again _ _ _ Hp).
    rewrite (wrap_counter_mod _ Hpr).
    set (buf1 := try_write buf _ _).
    destruct (IH buf1 ((pr + 1) mod (PACKETS_IN_FRAME_CLIPPED + 1)))
      as [buf' [Hfeed Hlen]].
    { pose proof (Z.mod_pos_bound (pr + 1) (PACKETS_IN_FRAME_CLIPPED + 1)).
      lia. }
    exists buf'. rewrite Hfeed. split.
    + cbn [List.length repeat]. do 2 f_equal.
      rewrite Z.add_mod_idemp_l by lia. f_equal. f_equal. lia.
    + rewrite Hlen. apply try_write_length.
Qed.

(** ** The assembler while accumulating *)

Lemma ingest_boundary (buf : list Z) (pr : Z) (p : packet) :
  boundary p = true ->
  ingest (Accumulating buf pr) p
  = Step SeekingStart
      (FrameReady buf (PACKETS_IN_FRAME_CLIPPED - (pr + 1))).
Proof.
  intros Hb. cbn [ingest]. rewrite (accumulate_body_boundary _ _ _ Hb).
  reflexivity.
Qed.

Lemma ingest_again (buf : list Z) (pr : Z) (p : packet) :
  boundary p = false ->
  ingest (Accumulating buf pr) p
  = Step (Accumulating (try_write buf (slot_of p) (packet_data p))
                       (wrap_counter (pr + 1)))
         NeedMore.
Proof.
  intros Hb. cbn [ingest]. rewrite (accumulate_body_again _ _ _ Hb).
  reflexivity.
Qed.

Lemma constant_payload_length (w : Z) :
  List.length (constant_payload w) = Z.to_nat UINT16_IN_PACKET.
Proof. apply repeat_length. Qed.

(** C1 (as the code has it): a packet on a frame boundary met while
    accumulating ends the frame before anything is written: the frame
    emitted is the buffer as it stood before that packet, the loss count is
    taken after counting the packet, and the assembler is back to seeking. *)
Theorem boundary_packet_closes_frame (buf : list Z) (pr : Z) (p : packet) :
  byte_count p mod BYTES_IN_FRAME_CLIPPED = 0 ->
  ingest (Accumulating buf pr) p
  = Step SeekingStart
      (FrameReady buf (PACKETS_IN_FRAME_CLIPPED - (pr + 1))).
Proof.
  intros H. apply ingest_boundary. unfold boundary. rewrite H. reflexivity.
Qed.

Lemma boundary_packet_closes_frame_witness :
  byte_count sample_closing mod BYTES_IN_FRAME_CLIPPED = 0
  /\ ingest (Accumulating (Np.zeros UINT16_IN_FRAME) 540) sample_closing
     = Step SeekingStart
         (FrameReady (Np.zeros UINT16_IN_FRAME)
                     (PACKETS_IN_FRAME_CLIPPED - (540 + 1))).
Proof.
  split; [reflexivity|].
  apply (boundary_packet_closes_frame (Np.zeros UINT16_IN_FRAME) 540
           sample_closing).
  reflexivity.
Defined.

(** The payload of a boundary packet is not in the frame it closes: the
    frame is emitted with its slot still zeroed. *)
Lemma boundary_packet_payload_not_written :
  byte_count sample_closing mod BYTES_IN_FRAME_CLIPPED = 0
  /\ exists frame lost,
       ingest (Accumulating (Np.zeros UINT16_IN_FRAME) 540) sample_closing
       = Step SeekingStart (FrameReady frame lost)
       /\ Np.getslice frame (slot_of sample_closing * UINT16_IN_PACKET)
            ((slot_of sample_closing + 1) * UINT16_IN_PACKET)
          <> packet_data sample_closing.
Proof.
  split; [reflexivity|].
  exists (Np.zeros UINT16_IN_FRAME), (PACKETS_IN_FRAME_CLIPPED - (540 + 1)).
  split; [apply ingest_boundary; reflexivity|].
  change (slot_of sample_closing) with 0.
  rewrite getslice_zeros
    by (rewrite ?UINT16_IN_PACKET_eq, ?UINT16_IN_FRAME_eq; lia).
  intros H. apply (f_equal (fun l => hd 0 l)) in H.
  vm_compute in H. discriminate H.
Qed.

(** C7 (as the code has it): while accumulating, a packet with any
    sequence number and any payload never makes [ingest] raise. Its slot
    always lies inside the frame; a write numpy refuses leaves the buffer as
    it was; whether the packet closes the frame depends on its byte count
    alone. The counter is advanced by one before anything else, so that a
    boundary packet reports [PACKETS_IN_FRAME_CLIPPED - (packets_read + 1)];
    for any other packet the advanced counter is kept when it is at most
    [PACKETS_IN_FRAME_CLIPPED] and restarts from 0 when it exceeds it
    (lines 184-185): the counter is not always [packets_read + 1]. *)
Theorem accumulating_ingest_never_raises (buf : list Z) (pr : Z) (p : packet) :
  ingest (Accumulating buf pr) p <> Raised
  /\ 0 <= slot_of p < PACKETS_IN_FRAME_CLIPPED
  /\ (boundary p = true ->
      ingest (Accumulating buf pr) p
      = Step SeekingStart
          (FrameReady buf (PACKETS_IN_FRAME_CLIPPED - (pr + 1))))
  /\ (boundary p = false ->
      exists buf',
        ingest (Accumulating buf pr) p
        = Step (Accumulating buf'
                  (if pr + 1 >? PACKETS_IN_FRAME_CLIPPED then 0 else pr + 1))
            NeedMore
        /\ List.length buf' = List.length buf
        /\ (Np.setslice buf (slot_of p * UINT16_IN_PACKET)
              ((slot_of p + 1) * UINT16_IN_PACKET) (packet_data p) = None ->
            buf' = buf)
        /\ (forall written,
              Np.setslice buf (slot_of p * UINT16_IN_PACKET)
                ((slot_of p + 1) * UINT16_IN_PACKET) (packet_data p)
              = Some written ->
              buf' = written)).
Proof.
  split; [|split; [apply slot_in_range|split]].
  - destruct (boundary p) eqn:Hb.
    + rewrite (ingest_boundary _ _ _ Hb). discriminate.
    + rewrite (ingest_again _ _ _ Hb). discriminate.
  - apply ingest_boundary.
  - intros Hb.
    exists (try_write buf (slot_of p) (packet_data p)).
    split; [apply ingest_again; exact Hb|].
    split; [apply try_write_length|].
    unfold try_write. split.
    + intros ->. reflexivity.
    + intros written ->. reflexivity.
Qed.

(** With the counter at the frame's packet count, a packet that does not
    close the frame leaves it at 0, not at one more than it was. *)
Lemma accumulating_counter_restarts :
  boundary sample_inner = false
  /\ exists buf',
       ingest (Accumulating (Np.zeros UINT16_IN_FRAME)
                 PACKETS_IN_FRAME_CLIPPED) sample_inner
       = Step (Accumulating buf' 0) NeedMore
       /\ 0 <> PACKETS_IN_FRAME_CLIPPED + 1.
Proof.
  split; [reflexivity|].
  exists (try_write (Np.zeros UINT16_IN_FRAME) (slot_of sample_inner)
            (packet_data sample_inner)).
  split.
  - rewrite (ingest_again _ _ sample_inner eq_refl). reflexivity.
  - rewrite PACKETS_IN_FRAME_CLIPPED_eq. lia.
Qed.

(** A payload that is neither a full packet nor a single sample cannot be
    placed: while accumulating it is dropped and only the counter moves. *)
Lemma ingest_write_dropped (buf : list Z) (pr : Z) (p : packet) :
  Z.of_nat (List.length buf) = UINT16_IN_FRAME ->
  boundary p = false ->
  List.length (packet_data p) <> Z.to_nat UINT16_IN_PACKET ->
  List.length (packet_data p) <> 1%nat ->
  ingest (Accumulating buf pr) p
  = Step (Accumulating buf (wrap_counter (pr + 1))) NeedMore.
Proof.
  intros Hbuf Hb Hlen Hone. rewrite (ingest_again _ _ _ Hb).
  unfold try_write. rewrite setslice_refused; [reflexivity| | | |exact Hone].
  - pose proof (slot_in_range (packet_num p)) as Hs. fold (slot_of p) in Hs.
    rewrite UINT16_IN_PACKET_eq. lia.
  - pose proof (slot_in_range (packet_num p)) as Hs. fold (slot_of p) in Hs.
    rewrite Hbuf, UINT16_IN_FRAME_eq, UINT16_IN_PACKET_eq.
    rewrite PACKETS_IN_FRAME_CLIPPED_eq in Hs. lia.
  - replace ((slot_of p + 1) * UINT16_IN_PACKET - slot_of p * UINT16_IN_PACKET)
      with UINT16_IN_PACKET by lia.
    exact Hlen.
Qed.

(** The same payload on the packet that starts a frame is not guarded: the
    assignment of line 164 raises out of [read]. *)
Lemma ingest_start_raises (p : packet) :
  boundary p = true ->
  List.length (packet_data p) <> Z.to_nat UINT16_IN_PACKET ->
  List.length (packet_data p) <> 1%nat ->
  ingest SeekingStart p = Raised.
Proof.
  intros Hb Hlen Hone. cbn [ingest]. unfold seek_body.
  unfold boundary in Hb. rewrite Hb.
  rewrite setslice_refused; [reflexivity| | | |exact Hone].
  - rewrite UINT16_IN_PACKET_eq. lia.
  - rewrite length_zeros, UINT16_IN_FRAME_eq, UINT16_IN_PACKET_eq. lia.
  - rewrite Z.sub_0_r. exact Hlen.
Qed.

(** C8: when the counter, once advanced, exceeds the frame's packet count
    on a packet that is off a frame boundary, it restarts from 0; the
    assembler keeps accumulating, no frame is emitted, and the buffer is the
    one the packet's write leaves, the same whatever the counter was. *)
Theorem counter_wrap_keeps_buffer (buf : list Z) (pr : Z) (p : packet) :
  boundary p = false ->
  pr + 1 > PACKETS_IN_FRAME_CLIPPED ->
  wrap_counter (pr + 1) = 0
  /\ ingest (Accumulating buf pr) p
     = Step (Accumulating (try_write buf (slot_of p) (packet_data p)) 0)
            NeedMore
  /\ forall pr', exists n,
       ingest (Accumulating buf pr') p
       = Step (Accumulating (try_write buf (slot_of p) (packet_data p)) n)
              NeedMore.
Proof.
  intros Hb Hgt.
  assert (Hw : wrap_counter (pr + 1) = 0).
  { unfold wrap_counter.
    destruct (pr + 1 >? PACKETS_IN_FRAME_CLIPPED) eqn:E; lia. }
  split; [exact Hw|]. split.
  - rewrite (ingest_again _ _ _ Hb), Hw. reflexivity.
  - intros pr'. exists (wrap_counter (pr' + 1)). apply ingest_again, Hb.
Qed.

Lemma counter_wrap_keeps_buffer_witness :
  boundary sample_inner = false
  /\ 540 + 1 > PACKETS_IN_FRAME_CLIPPED
  /\ wrap_counter (540 + 1) = 0
  /\ ingest (Accumulating (Np.zeros UINT16_IN_FRAME) 540) sample_inner
     = Step (Accumulating
               (try_write (Np.zeros UINT16_IN_FRAME) (slot_of sample_inner)
                          (packet_data sample_inner)) 0)
            NeedMore.
Proof.
  split; [reflexivity|]. split; [reflexivity|].
  destruct (counter_wrap_keeps_buffer (Np.zeros UINT16_IN_FRAME) 540
              sample_inner eq_refl eq_refl) as [Hw [Hi _]].
  split; [exact Hw|exact Hi].
Defined.

(** ** From the start of a frame to its end *)

Lemma ingest_start (p : packet) :
  boundary p = true ->
  List.length (packet_data p) = Z.to_nat UINT16_IN_PACKET ->
  ingest SeekingStart p
  = Step (Accumulating
            (packet_data p
             ++ skipn (Z.to_nat UINT16_IN_PACKET) (Np.zeros UINT16_IN_FRAME))
            1)
         NeedMore.
Proof.
  intros Hb Hlen. cbn [ingest].
  rewrite (seek_body_start _ _ Hb Hlen); [reflexivity|].
  rewrite length_zeros, UINT16_IN_PACKET_eq, UINT16_IN_FRAME_eq. lia.
Qed.

Lemma start_buffer_length (v : list Z) :
  List.length v = Z.to_nat UINT16_IN_PACKET ->
  Z.of_nat (List.length
              (v ++ skipn (Z.to_nat UINT16_IN_PACKET)
                      (Np.zeros UINT16_IN_FRAME)))
  = UINT16_IN_FRAME.
Proof.
  intros Hv. rewrite length_app, length_skipn, length_zeros, Hv.
  rewrite UINT16_IN_PACKET_eq, UINT16_IN_FRAME_eq. lia.
Qed.

Lemma start_buffer_slot0 (v : list Z) :
  List.length v = Z.to_nat UINT16_IN_PACKET ->
  Np.getslice
    (v ++ skipn (Z.to_nat UINT16_IN_PACKET) (Np.zeros UINT16_IN_FRAME))
    0 UINT16_IN_PACKET = v.
Proof.
  intros Hv.
  assert (H : Np.getslice
                (firstn (Z.to_nat 0) (Np.zeros UINT16_IN_FRAME) ++ v
                 ++ skipn (Z.to_nat UINT16_IN_PACKET)
                      (Np.zeros UINT16_IN_FRAME))
                0 UINT16_IN_PACKET = v).
  { apply getslice_written.
    - rewrite UINT16_IN_PACKET_eq. lia.
    - rewrite length_zeros, UINT16_IN_PACKET_eq, UINT16_IN_FRAME_eq. lia.
    - rewrite Hv, Z.sub_0_r. reflexivity. }
  rewrite Z2Nat.inj_0, firstn_O, app_nil_l in H. exact H.
Qed.

(** Packets discarded while seeking, the packet that starts the frame,
    packets off a boundary, and the packet on the next boundary: one frame
    is emitted, at the last packet, and the count it reports has wrapped
    each time it went past the frame's packet count. *)
Lemma feed_frame_cycle (pre mid : list packet) (start closing : packet) :
  Forall (fun p => boundary p = false) pre ->
  boundary start = true ->
  List.length (packet_data start) = Z.to_nat UINT16_IN_PACKET ->
  Forall (fun p => boundary p = false) mid ->
  boundary closing = true ->
  exists buf,
    feed SeekingStart (pre ++ start :: mid ++ [closing])
    = Some (SeekingStart,
            repeat NeedMore (List.length pre + 1 + List.length mid)
            ++ [FrameReady buf
                  (PACKETS_IN_FRAME_CLIPPED
                   - ((1 + Z.of_nat (List.length mid))
                        mod (PACKETS_IN_FRAME_CLIPPED + 1) + 1))])
    /\ Z.of_nat (List.length buf) = UINT16_IN_FRAME.
Proof.
  intros Hpre Hs Hlen Hmid Hc.
  destruct (feed_accumulating mid Hmid
              (packet_data start
               ++ skipn (Z.to_nat UINT16_IN_PACKET) (Np.zeros UINT16_IN_FRAME))
              1) as [buf [Hfeed Hbuf]].
  { rewrite PACKETS_IN_FRAME_CLIPPED_eq. lia. }
  exists buf. split.
  - rewrite feed_app, (feed_seeking_discard pre Hpre).
    cbn [feed]. rewrite (ingest_start _ Hs Hlen).
    rewrite feed_app, Hfeed. cbn [feed].
    rewrite (ingest_boundary _ _ _ Hc).
    do 2 f_equal.
    rewrite <- Nat.add_assoc, !repeat_app, <- app_assoc. reflexivity.
  - rewrite Hbuf. apply start_buffer_length, Hlen.
Qed.

Lemma repeat_inner_off_boundary (k : nat) :
  Forall (fun p => boundary p = false) (repeat sample_inner k).
Proof.
  apply Forall_forall. intros x Hx. apply repeat_spec in Hx. subst x.
  reflexivity.
Qed.

(** With 542 packets from the start of the frame to its end, the count
    reported is 539, not 540 - 542: the counter restarted from 0 when it
    passed 540. *)
Lemma lost_packets_not_total_count :
  exists buf lost,
    feed SeekingStart sample_overlong
    = Some (SeekingStart, repeat NeedMore 541 ++ [FrameReady buf lost])
    /\ frames (repeat NeedMore 541) = []
    /\ Z.of_nat (List.length sample_overlong) = 542
    /\ lost = 539
    /\ lost <> PACKETS_IN_FRAME_CLIPPED
               - Z.of_nat (List.length sample_overlong).
Proof.
  destruct (feed_frame_cycle [] (repeat sample_inner 540) sample_start
              sample_closing (Forall_nil _) eq_refl
              (constant_payload_length 257)
              (repeat_inner_off_boundary 540) eq_refl)
    as [buf [Hfeed _]].
  rewrite repeat_length in Hfeed.
  exists buf. eexists. split; [exact Hfeed|].
  split; [apply frames_repeat_NeedMore|].
  assert (Hlen : Z.of_nat (List.length sample_overlong) = 542).
  { unfold sample_overlong. cbn [List.length].
    rewrite length_app, repeat_length. reflexivity. }
  rewrite Hlen. split; [reflexivity|]. split; [reflexivity|].
  vm_compute. discriminate.
Qed.

(** ** The synthetic sequence *)

Lemma numbered_off_boundary (payload : Z -> list Z) (i : Z) :
  1 <= i < PACKETS_IN_FRAME_CLIPPED ->
  boundary (numbered payload i) = false.
Proof.
  intros Hi. unfold boundary, numbered. cbn [byte_count].
  pose proof PACKETS_IN_FRAME_CLIPPED_eq as HP.
  rewrite BYTES_IN_FRAME_CLIPPED_eq.
  change BYTES_IN_PACKET with 1456.
  rewrite Z.mod_small by lia.
  apply Z.eqb_neq. lia.
Qed.

(** Fed from the initial state, the synthetic sequence is discarded up to
    its last packet, which starts a frame: nothing is emitted. *)
Lemma feed_synthetic_sequence (payload : Z -> list Z) (k : Z) :
  List.length (payload PACKETS_IN_FRAME_CLIPPED) = Z.to_nat UINT16_IN_PACKET ->
  exists buf,
    feed SeekingStart (synthetic_sequence payload (k * BYTES_IN_FRAME_CLIPPED))
    = Some (Accumulating buf 1, repeat NeedMore 540)
    /\ frames (repeat NeedMore 540) = []
    /\ Np.getslice buf 0 UINT16_IN_PACKET = payload PACKETS_IN_FRAME_CLIPPED
    /\ Z.of_nat (List.length buf) = UINT16_IN_FRAME.
Proof.
  intros Hlen.
  exists (payload PACKETS_IN_FRAME_CLIPPED
          ++ skipn (Z.to_nat UINT16_IN_PACKET) (Np.zeros UINT16_IN_FRAME)).
  split; [|split; [apply frames_repeat_NeedMore
                  |split; [apply start_buffer_slot0, Hlen
                          |apply start_buffer_length, Hlen]]].
  unfold synthetic_sequence. rewrite feed_app.
  rewrite feed_seeking_discard.
  - rewrite length_map, length_seq. cbn [feed].
    rewrite ingest_start.
    + change (Z.to_nat PACKETS_IN_FRAME_CLIPPED - 1)%nat with 539%nat.
      change 540%nat with (539 + 1)%nat.
      rewrite repeat_app. reflexivity.
    + unfold boundary. cbn [byte_count].
      rewrite Z.mod_mul; [reflexivity|].
      rewrite BYTES_IN_FRAME_CLIPPED_eq. lia.
    + exact Hlen.
  - apply Forall_forall. intros x Hx.
    apply in_map_iff in Hx. destruct Hx as [i [<- Hi]].
    apply in_seq in Hi. apply numbered_off_boundary.
    change (Z.to_nat PACKETS_IN_FRAME_CLIPPED - 1)%nat with 539%nat in Hi.
    rewrite PACKETS_IN_FRAME_CLIPPED_eq. lia.
Qed.

(** C2 (as the code has it): the synthetic sequence, fed from the initial
    state, makes the assembler emit nothing; its first 539 packets are
    discarded while seeking and its last packet starts a frame, with its
    payload at offset 0 and a count of 1. *)
Theorem synthetic_sequence_only_starts_frame (payload : Z -> list Z) (k : Z) :
  List.length (payload PACKETS_IN_FRAME_CLIPPED) = Z.to_nat UINT16_IN_PACKET ->
  exists buf es,
    feed SeekingStart (synthetic_sequence payload (k * BYTES_IN_FRAME_CLIPPED))
    = Some (Accumulating buf 1, es)
    /\ List.length es = 540%nat
    /\ frames es = []
    /\ Np.getslice buf 0 UINT16_IN_PACKET = payload PACKETS_IN_FRAME_CLIPPED
    /\ Z.of_nat (List.length buf) = UINT16_IN_FRAME.
Proof.
  intros Hlen.
  destruct (feed_synthetic_sequence payload k Hlen)
    as [buf [Hfeed [Hfr [Hslot Hbuf]]]].
  exists buf, (repeat NeedMore 540).
  split; [exact Hfeed|]. split; [apply repeat_length|].
  split; [exact Hfr|]. split; [exact Hslot|exact Hbuf].
Qed.

Lemma synthetic_sequence_only_starts_frame_witness :
  List.length (constant_payload PACKETS_IN_FRAME_CLIPPED)
  = Z.to_nat UINT16_IN_PACKET
  /\ exists buf es,
       feed SeekingStart sample_synthetic = Some (Accumulating buf 1, es)
       /\ List.length es = 540%nat
       /\ frames es = []
       /\ Np.getslice buf 0 UINT16_IN_PACKET
          = constant_payload PACKETS_IN_FRAME_CLIPPED
       /\ Z.of_nat (List.length buf) = UINT16_IN_FRAME.
Proof.
  split; [apply constant_payload_length|].
  exact (synthetic_sequence_only_starts_frame
           (fun i => constant_payload i) 1
           (constant_payload_length PACKETS_IN_FRAME_CLIPPED)).
Defined.

(** The synthetic sequence yields no frame at all, where one was expected. *)
Lemma synthetic_sequence_emits_no_frame :
  exists st es,
    feed SeekingStart sample_synthetic = Some (st, es)
    /\ List.length (frames es) = 0%nat
    /\ List.length (frames es) <> 1%nat.
Proof.
  destruct (feed_synthetic_sequence (fun i => constant_payload i) 1
              (constant_payload_length PACKETS_IN_FRAME_CLIPPED))
    as [buf [Hfeed [Hfr _]]].
  exists (Accumulating buf 1), (repeat NeedMore 540).
  split; [exact Hfeed|]. rewrite Hfr. split; [reflexivity|discriminate].
Qed.

(** ** [read] *)

Lemma Forall_firstn {A : Type} (P : A -> Prop) (n : nat) (l : list A) :
  Forall P l -> Forall P (firstn n l).
Proof.
  intros H. rewrite <- (firstn_skipn n l) in H.
  apply Forall_app in H. apply H.
Qed.

Lemma Forall_skipn {A : Type} (P : A -> Prop) (n : nat) (l : list A) :
  Forall P l -> Forall P (skipn n l).
Proof.
  intros H. rewrite <- (firstn_skipn n l) in H.
  apply Forall_app in H. apply H.
Qed.

Lemma Forall_repeat {A : Type} (P : A -> Prop) (x : A) (n : nat) :
  P x -> Forall P (repeat x n).
Proof. intros H. induction n; simpl; constructor; auto. Qed.

(** Assigning [uint16] samples to a slice of an array of [uint16] samples
    leaves an array of [uint16] samples. *)
Lemma setslice_uint16 (arr : list Z) (start stop : Z) (v arr' : list Z) :
  Forall uint16 arr -> Forall uint16 v ->
  Np.setslice arr start stop v = Some arr' ->
  Forall uint16 arr'.
Proof.
  intros Ha Hv. unfold Np.setslice.
  destruct (Nat.eqb _ _).
  - intros H. inversion H; subst arr'.
    repeat (apply Forall_app; split);
      auto using Forall_firstn, Forall_skipn.
  - destruct (Nat.eqb_spec (List.length v) 1) as [E|E]; [|discriminate].
    intros H. inversion H; subst arr'.
    repeat (apply Forall_app; split);
      auto using Forall_firstn, Forall_skipn.
    apply Forall_repeat.
    destruct v as [|w v]; [discriminate|].
    inversion Hv; assumption.
Qed.

Lemma try_write_uint16 (buf : list Z) (idx : Z) (v : list Z) :
  Forall uint16 buf -> Forall uint16 v -> Forall uint16 (try_write buf idx v).
Proof.
  intros Hb Hv. unfold try_write.
  destruct (Np.setslice buf _ _ v) eqn:E; [|exact Hb].
  eapply setslice_uint16; [exact Hb|exact Hv|exact E].
Qed.

Lemma frombuffer_uint16_pair (b0 b1 : byte) (bs : list byte) :
  Np.frombuffer_uint16 (b0 :: b1 :: bs)
  = match Np.frombuffer_uint16 bs with
    | Some ws => Some (Bytes.to_Z b0 + 256 * Bytes.to_Z b1 :: ws)
    | None => None
    end.
Proof. reflexivity. Qed.

Lemma frombuffer_uint16_range_aux (bs : list byte) :
  (forall ws, Np.frombuffer_uint16 bs = Some ws -> Forall uint16 ws)
  /\ (forall b ws, Np.frombuffer_uint16 (b :: bs) = Some ws ->
                   Forall uint16 ws).
Proof.
  induction bs as [|b1 bs [IH1 IH2]].
  - split.
    + intros ws H. inversion H. constructor.
    + intros b ws H. discriminate H.
  - split; [apply IH2|].
    intros b ws H. rewrite frombuffer_uint16_pair in H.
    destruct (Np.frombuffer_uint16 bs) as [ws'|] eqn:E; [|discriminate].
    assert (Hws : ws = Bytes.to_Z b + 256 * Bytes.to_Z b1 :: ws')
      by congruence.
    subst ws. constructor; [|apply IH1; reflexivity].
    pose proof (to_Z_range b). pose proof (to_Z_range b1).
    unfold uint16. lia.
Qed.

Lemma read_data_packet_uint16 (ev : recv_event) (p : packet) :
  _read_data_packet ev = Some p -> Forall uint16 (packet_data p).
Proof.
  destruct ev as [data| |]; try discriminate.
  unfold _read_data_packet.
  destruct (decode_header data) as [[n c]|]; [|discriminate].
  destruct (Np.frombuffer_uint16 (skipn 10 data)) as [ws|] eqn:E;
    [|discriminate].
  intros H. inversion H; subst p. cbn [packet_data].
  destruct (frombuffer_uint16_range_aux (skipn 10 data)) as [Hr _].
  apply Hr, E.
Qed.

(** What the second loop can end with: a frame of the buffer's length,
    with the loss count stored at that moment; or nothing, the session left
    as it was. *)
Lemma accumulate_loop_result (evs : list recv_event) :
  forall (self : session) (buf : list Z) (pr : Z) (r : read_result)
         (s' : session),
    Forall uint16 buf ->
    accumulate_loop self buf pr evs = (r, s') ->
    match r with
    | ReturnFrame f =>
      List.length f = List.length buf /\ Forall uint16 f
      /\ exists lost, s' = mkSession (Some lost)
    | ReturnNone => s' = self
    | RaiseValueError => s' = self
    end.
Proof.
  induction evs as [|ev evs IH]; intros self buf pr r s' Hu H.
  - inversion H. reflexivity.
  - cbn [accumulate_loop] in H.
    destruct (_read_data_packet ev) as [p|] eqn:Hp.
    + unfold accumulate_body in H.
      destruct (byte_count p mod BYTES_IN_FRAME_CLIPPED =? 0).
      * inversion H. split; [reflexivity|]. split; [exact Hu|].
        eexists. reflexivity.
      * apply IH in H.
        -- destruct r; auto.
           rewrite try_write_length in H. exact H.
        -- apply try_write_uint16; [exact Hu|].
           eapply read_data_packet_uint16, Hp.
    + inversion H. reflexivity.
Qed.

Lemma seek_loop_result (evs : list recv_event) :
  forall (self : session) (buf : list Z) (r : read_result) (s' : session),
    Forall uint16 buf ->
    seek_loop self buf evs = (r, s') ->
    match r with
    | ReturnFrame f =>
      List.length f = List.length buf /\ Forall uint16 f
      /\ exists lost, s' = mkSession (Some lost)
    | ReturnNone => s' = self
    | RaiseValueError => s' = self
    end.
Proof.
  induction evs as [|ev evs IH]; intros self buf r s' Hu H.
  - inversion H. reflexivity.
  - cbn [seek_loop] in H.
    destruct (_read_data_packet ev) as [p|] eqn:Hp.
    + unfold seek_body in H.
      destruct (byte_count p mod BYTES_IN_FRAME_CLIPPED =? 0).
      * destruct (Np.setslice buf 0 UINT16_IN_PACKET (packet_data p))
          as [buf'|] eqn:E.
        -- apply accumulate_loop_result in H.
           ++ destruct r; auto.
              rewrite (setslice_length _ _ _ _ _ E) in H. exact H.
           ++ eapply setslice_uint16; [exact Hu| |exact E].
              eapply read_data_packet_uint16, Hp.
        -- inversion H. reflexivity.
      * apply IH in H; assumption.
    + inversion H. reflexivity.
Qed.

Lemma read_result_cases (self : session) (evs : list recv_event)
  (r : read_result) (s' : session) :
  read self evs = (r, s') ->
  match r with
  | ReturnFrame f =>
    Z.of_nat (List.length f) = UINT16_IN_FRAME /\ Forall uint16 f
    /\ exists lost, s' = mkSession (Some lost)
  | ReturnNone => s' = self
  | RaiseValueError => s' = self
  end.
Proof.
  unfold read. intros H.
  apply seek_loop_result in H; [|apply zeros_uint16].
  destruct r; auto.
  rewrite length_zeros in H. destruct H as [Hl H]. split; [|exact H].
  rewrite Hl, UINT16_IN_FRAME_eq. reflexivity.
Qed.

(** C3 (as the code has it): the buffer a successful [read] returns has
    exactly [UINT16_IN_FRAME] samples, half the bytes of the whole frame,
    393216 for the default configuration, each a [uint16]; the clipped
    frame's 393120 samples are the part the slots can address. *)
Theorem read_frame_length (self : session) (evs : list recv_event)
  (f : list Z) (s' : session) :
  read self evs = (ReturnFrame f, s') ->
  Z.of_nat (List.length f) = UINT16_IN_FRAME
  /\ UINT16_IN_FRAME = BYTES_IN_FRAME / 2
  /\ UINT16_IN_FRAME = 393216
  /\ Forall uint16 f
  /\ PACKETS_IN_FRAME_CLIPPED * UINT16_IN_PACKET = wordsPerClippedFrame
  /\ wordsPerClippedFrame < UINT16_IN_FRAME.
Proof.
  intros H. apply read_result_cases in H. destruct H as [Hl [Hu _]].
  split; [exact Hl|]. split; [reflexivity|]. split; [reflexivity|].
  split; [exact Hu|]. split; reflexivity.
Qed.

Lemma decode_sample_start :
  _read_data_packet (Datagram sample_start_datagram) = Some sample_start.
Proof. vm_compute. reflexivity. Qed.

Lemma decode_sample_closing :
  _read_data_packet (Datagram sample_closing_datagram) = Some sample_closing.
Proof. vm_compute. reflexivity. Qed.

(** The two sample datagrams make [read] return a frame: the start's
    payload followed by zeros, 538 packets counted lost. *)
Lemma read_sample_events (self : session) :
  read self sample_events
  = (ReturnFrame
       (packet_data sample_start
        ++ skipn (Z.to_nat UINT16_IN_PACKET) (Np.zeros UINT16_IN_FRAME)),
     mkSession (Some 538)).
Proof.
  unfold read, sample_events. cbn [seek_loop].
  rewrite decode_sample_start.
  rewrite (seek_body_start _ sample_start eq_refl
             (constant_payload_length 257)).
  - cbn [accumulate_loop]. rewrite decode_sample_closing.
    rewrite (accumulate_body_boundary _ _ sample_closing eq_refl).
    reflexivity.
  - rewrite length_zeros, UINT16_IN_PACKET_eq, UINT16_IN_FRAME_eq. lia.
Qed.

Lemma read_frame_length_witness :
  read (mkSession None) sample_events
  = (ReturnFrame
       (packet_data sample_start
        ++ skipn (Z.to_nat UINT16_IN_PACKET) (Np.zeros UINT16_IN_FRAME)),
     mkSession (Some 538))
  /\ Z.of_nat
       (List.length
          (packet_data sample_start
           ++ skipn (Z.to_nat UINT16_IN_PACKET) (Np.zeros UINT16_IN_FRAME)))
     = UINT16_IN_FRAME.
Proof.
  split; [apply read_sample_events|].
  apply (read_frame_length (mkSession None) sample_events _
           (mkSession (Some 538)) (read_sample_events (mkSession None))).
Defined.

(** A frame [read] returns does not have the clipped frame's length. *)
Lemma read_frame_not_clipped_length :
  exists f s',
    read (mkSession None) sample_events = (ReturnFrame f, s')
    /\ Z.of_nat (List.length f) = 393216
    /\ wordsPerClippedFrame = 393120
    /\ Z.of_nat (List.length f) <> wordsPerClippedFrame.
Proof.
  eexists. eexists. split; [apply read_sample_events|].
  rewrite start_buffer_length by apply constant_payload_length.
  split; [reflexivity|]. split; [reflexivity|].
  vm_compute. discriminate.
Qed.

(** ** [read] and the assembler *)

Lemma read_is_read_from (self : session) (evs : list recv_event) :
  read self evs = read_from self SeekingStart evs.
Proof. reflexivity. Qed.

(** A packet the assembler wants more after: [read] goes on from the
    assembler's next state. *)
Lemma read_from_step (self : session) (st st' : state) (ev : recv_event)
  (p : packet) (evs : list recv_event) :
  _read_data_packet ev = Some p ->
  ingest st p = Step st' NeedMore ->
  read_from self st (ev :: evs) = read_from self st' evs.
Proof.
  intros Hp Hi. destruct st as [|buf pr]; cbn [read_from ingest] in *.
  - cbn [seek_loop]. rewrite Hp.
    destruct (seek_body (Np.zeros UINT16_IN_FRAME) p) as [|buf' pr'|];
      inversion Hi; reflexivity.
  - cbn [accumulate_loop]. rewrite Hp.
    destruct (accumulate_body buf pr p) as [buf' lost|buf' pr'];
      inversion Hi; reflexivity.
Qed.

(** The packet at which the assembler emits a frame: [read] returns the
    frame and stores its loss count. *)
Lemma read_from_frame (self : session) (st st' : state) (ev : recv_event)
  (p : packet) (evs : list recv_event) (f : list Z) (lost : Z) :
  _read_data_packet ev = Some p ->
  ingest st p = Step st' (FrameReady f lost) ->
  read_from self st (ev :: evs) = (ReturnFrame f, mkSession (Some lost)).
Proof.
  intros Hp Hi. destruct st as [|buf pr]; cbn [read_from ingest] in *.
  - destruct (seek_body (Np.zeros UINT16_IN_FRAME) p); discriminate.
  - cbn [accumulate_loop]. rewrite Hp.
    destruct (accumulate_body buf pr p) as [buf' lost'|buf' pr'];
      inversion Hi; reflexivity.
Qed.

(** Over received packets that complete no frame, [read] follows [feed]. *)
Lemma read_from_feed (pre : list recv_event) :
  forall (ps : list packet) (st st' : state) (es : list event)
         (self : session) (evs : list recv_event),
    map _read_data_packet pre = map Some ps ->
    feed st ps = Some (st', es) ->
    frames es = [] ->
    read_from self st (pre ++ evs) = read_from self st' evs.
Proof.
  induction pre as [|ev pre IH]; intros ps st st' es self evs Hmap Hfeed Hfr.
  - destruct ps as [|p ps]; [|discriminate].
    cbn [feed] in Hfeed. inversion Hfeed. reflexivity.
  - destruct ps as [|p ps]; [discriminate|].
    cbn [map] in Hmap. injection Hmap as Hp Hmap.
    cbn [feed] in Hfeed.
    destruct (ingest st p) as [st1 e|] eqn:Hi; [|discriminate].
    destruct (feed st1 ps) as [[st2 es']|] eqn:Hf; [|discriminate].
    inversion Hfeed; subst st2 es. clear Hfeed.
    destruct e as [|f lost]; [|discriminate].
    cbn [app]. rewrite (read_from_step self st st1 ev p _ Hp Hi).
    apply (IH ps st1 st' es'); assumption.
Qed.

Lemma read_from_no_packet (self : session) (st : state) (ev : recv_event)
  (evs : list recv_event) :
  _read_data_packet ev = None ->
  read_from self st (ev :: evs) = (ReturnNone, self).
Proof.
  intros Hp. destruct st as [|buf pr]; cbn [read_from].
  - cbn [seek_loop]. rewrite Hp. reflexivity.
  - cbn [accumulate_loop]. rewrite Hp. reflexivity.
Qed.

Lemma read_from_exhausted (self : session) (st : state) :
  read_from self st [] = (ReturnNone, self).
Proof. destruct st; reflexivity. Qed.

(** After packets that completed no frame, an event that yields no packet
    makes [read] return [None] with the session as it was; so does the end
    of what the source has to give. *)
Lemma read_from_no_packet_after (self : session) (pre : list recv_event)
  (ps : list packet) (st : state) (es : list event) (ev : recv_event)
  (rest : list recv_event) :
  map _read_data_packet pre = map Some ps ->
  feed SeekingStart ps = Some (st, es) ->
  frames es = [] ->
  _read_data_packet ev = None ->
  read self (pre ++ ev :: rest) = (ReturnNone, self)
  /\ read self pre = (ReturnNone, self).
Proof.
  intros Hmap Hfeed Hfr Hev. rewrite !read_is_read_from. split.
  - rewrite (read_from_feed pre ps SeekingStart st es self _ Hmap Hfeed Hfr).
    apply read_from_no_packet, Hev.
  - rewrite <- (app_nil_r pre).
    rewrite (read_from_feed pre ps SeekingStart st es self _ Hmap Hfeed Hfr).
    apply read_from_exhausted.
Qed.

(** C6: when the source yields no packet (a timeout, an error, a datagram
    that does not decode) after packets that completed no frame, whether
    the assembler was still seeking or already accumulating, [read] returns
    [None], not a buffer; so does a source that falls silent at that point. *)
Theorem read_incomplete (self : session) (pre : list recv_event)
  (ps : list packet) (st : state) (es : list event) (ev : recv_event)
  (rest : list recv_event) :
  map _read_data_packet pre = map Some ps ->
  feed SeekingStart ps = Some (st, es) ->
  frames es = [] ->
  _read_data_packet ev = None ->
  read self (pre ++ ev :: rest) = (ReturnNone, self)
  /\ read self pre = (ReturnNone, self)
  /\ (forall f s', read self (pre ++ ev :: rest) <> (ReturnFrame f, s')).
Proof.
  intros Hmap Hfeed Hfr Hev.
  destruct (read_from_no_packet_after self pre ps st es ev rest
              Hmap Hfeed Hfr Hev) as [H1 H2].
  split; [exact H1|]. split; [exact H2|].
  intros f s'. rewrite H1. discriminate.
Qed.

Lemma feed_sample_start_inner :
  feed SeekingStart [sample_inner; sample_start; sample_inner]
  = Some (Accumulating
            (try_write
               (packet_data sample_start
                ++ skipn (Z.to_nat UINT16_IN_PACKET)
                     (Np.zeros UINT16_IN_FRAME))
               (slot_of sample_inner) (packet_data sample_inner))
            (wrap_counter (1 + 1)),
          [NeedMore; NeedMore; NeedMore]).
Proof.
  cbn [feed].
  change (ingest SeekingStart sample_inner) with (Step SeekingStart NeedMore).
  cbn [feed].
  rewrite (ingest_start sample_start eq_refl (constant_payload_length 257)).
  cbn [feed].
  rewrite (ingest_again _ _ sample_inner eq_refl).
  reflexivity.
Qed.

Lemma decode_sample_inner :
  _read_data_packet (Datagram sample_inner_datagram) = Some sample_inner.
Proof. vm_compute. reflexivity. Qed.

Lemma decode_sample_opening :
  map _read_data_packet sample_opening
  = map Some [sample_inner; sample_start; sample_inner].
Proof.
  unfold sample_opening. cbn [map].
  rewrite decode_sample_inner, decode_sample_start. reflexivity.
Qed.

Lemma read_incomplete_witness :
  map _read_data_packet sample_opening
  = map Some [sample_inner; sample_start; sample_inner]
  /\ frames [NeedMore; NeedMore; NeedMore] = []
  /\ _read_data_packet SocketTimeout = None
  /\ read (mkSession (Some 7))
       (sample_opening
        ++ SocketTimeout :: [Datagram sample_closing_datagram])
     = (ReturnNone, mkSession (Some 7)).
Proof.
  split; [apply decode_sample_opening|].
  split; [reflexivity|]. split; [reflexivity|].
  apply (read_incomplete (mkSession (Some 7)) sample_opening
           [sample_inner; sample_start; sample_inner] _ _ SocketTimeout
           [Datagram sample_closing_datagram]
           decode_sample_opening feed_sample_start_inner
           eq_refl eq_refl).
Defined.

(** The sample opening followed by a timeout: [read] gives up midway
    through the frame. *)
Lemma read_sample_opening_timeout (self : session) :
  read self (sample_opening
             ++ SocketTimeout :: [Datagram sample_closing_datagram])
  = (ReturnNone, self).
Proof.
  apply (read_from_no_packet_after self sample_opening
           [sample_inner; sample_start; sample_inner] _ _ SocketTimeout
           [Datagram sample_closing_datagram]
           decode_sample_opening feed_sample_start_inner
           eq_refl eq_refl).
Qed.

(** C10: a [read] that returns [None] leaves [lost_packets] as it was,
    wherever it gave up; [lost_packets] differs after a [read] only when
    that [read] returned a frame, and then holds that frame's loss count. *)
Theorem read_abort_keeps_lost_packets (self : session)
  (evs : list recv_event) (r : read_result) (s' : session) :
  read self evs = (r, s') ->
  (r = ReturnNone -> lost_packets s' = lost_packets self)
  /\ (lost_packets s' <> lost_packets self ->
      exists f lost, r = ReturnFrame f /\ lost_packets s' = Some lost).
Proof.
  intros H. apply read_result_cases in H. split.
  - intros ->. rewrite H. reflexivity.
  - intros Hne. destruct r as [f| |].
    + destruct H as [_ [_ [lost ->]]]. exists f, lost. split; reflexivity.
    + subst s'. contradiction Hne. reflexivity.
    + subst s'. contradiction Hne. reflexivity.
Qed.

Lemma read_abort_keeps_lost_packets_witness :
  read (mkSession (Some 7))
    (sample_opening ++ SocketTimeout :: [Datagram sample_closing_datagram])
  = (ReturnNone, mkSession (Some 7))
  /\ lost_packets (mkSession (Some 7)) = lost_packets (mkSession (Some 7)).
Proof.
  split; [apply read_sample_opening_timeout|].
  destruct (read_abort_keeps_lost_packets (mkSession (Some 7))
              (sample_opening
               ++ SocketTimeout :: [Datagram sample_closing_datagram])
              ReturnNone (mkSession (Some 7))
              (read_sample_opening_timeout (mkSession (Some 7))))
    as [Hkeep _].
  apply Hkeep. reflexivity.
Defined.

(** * Further properties of the driver *)

(** ** Samples of an array after an assignment to a slice *)

Lemma nth_splice (arr w : list Z) (a b i : nat) (d : Z) :
  (a <= b)%nat -> (b <= List.length arr)%nat ->
  List.length w = (b - a)%nat ->
  nth i (firstn a arr ++ w ++ skipn b arr) d
  = if (i <? a)%nat then nth i arr d
    else if (i <? b)%nat then nth (i - a) w d
    else nth i arr d.
Proof.
  intros Hab Hb Hw.
  assert (Hf : List.length (firstn a arr) = a) by (rewrite length_firstn; lia).
  destruct (Nat.ltb_spec i a) as [Hi|Hi].
  - rewrite app_nth1 by lia. rewrite nth_firstn.
    destruct (Nat.ltb_spec i a); [reflexivity|lia].
  - rewrite app_nth2 by lia. rewrite Hf.
    destruct (Nat.ltb_spec i b) as [Hib|Hib].
    + rewrite app_nth1 by lia. reflexivity.
    + rewrite app_nth2 by lia. rewrite nth_skipn. f_equal. lia.
Qed.

Lemma nth_slice (arr : list Z) (a b i : nat) (d : Z) :
  (a <= b)%nat -> (b <= List.length arr)%nat ->
  nth i (Bytes.slice a b arr) d
  = if (i <? b - a)%nat then nth (a + i) arr d else d.
Proof.
  intros Hab Hb. unfold Bytes.slice. rewrite nth_firstn, nth_skipn.
  reflexivity.
Qed.

Lemma length_slice (arr : list Z) (a b : nat) :
  (a <= b)%nat -> (b <= List.length arr)%nat ->
  List.length (Bytes.slice a b arr) = (b - a)%nat.
Proof.
  intros Hab Hb. unfold Bytes.slice. rewrite length_firstn, length_skipn. lia.
Qed.

Lemma getslice_inside (arr : list Z) (start stop : Z) :
  0 <= start <= stop -> stop <= Z.of_nat (List.length arr) ->
  Np.getslice arr start stop
  = Bytes.slice (Z.to_nat start) (Z.to_nat stop) arr.
Proof.
  intros H1 H2. unfold Np.getslice.
  rewrite (clip_inside _ start) by lia.
  rewrite (clip_inside _ stop) by lia.
  rewrite Z.max_r by lia. reflexivity.
Qed.

(** A slice that does not meet the one assigned reads as before. *)
Lemma getslice_splice_other (arr w : list Z) (a b a' b' : Z) :
  0 <= a <= b -> b <= Z.of_nat (List.length arr) ->
  List.length w = Z.to_nat (b - a) ->
  0 <= a' <= b' -> b' <= Z.of_nat (List.length arr) ->
  b' <= a \/ b <= a' ->
  Np.getslice (firstn (Z.to_nat a) arr ++ w ++ skipn (Z.to_nat b) arr) a' b'
  = Np.getslice arr a' b'.
Proof.
  intros Ha Hb Hw Ha' Hb' Hdis.
  assert (Hl : List.length (firstn (Z.to_nat a) arr ++ w
                            ++ skipn (Z.to_nat b) arr)
               = List.length arr).
  { rewrite !length_app, length_firstn, length_skipn. lia. }
  rewrite !getslice_inside by (rewrite ?Hl; lia).
  apply (nth_ext _ _ 0 0).
  - rewrite !length_slice by (rewrite ?Hl; lia). reflexivity.
  - intros i Hi. rewrite length_slice in Hi by (rewrite ?Hl; lia).
    rewrite !nth_slice by (rewrite ?Hl; lia).
    destruct (Nat.ltb_spec i (Z.to_nat b' - Z.to_nat a')); [|reflexivity].
    rewrite nth_splice by lia.
    destruct (Nat.ltb_spec (Z.to_nat a' + i) (Z.to_nat a)); [reflexivity|].
    destruct (Nat.ltb_spec (Z.to_nat a' + i) (Z.to_nat b)); [lia|reflexivity].
Qed.

(** ** One write into the frame buffer *)

Lemma placed_length (v w : list Z) :
  placed v = Some w -> List.length w = Z.to_nat UINT16_IN_PACKET.
Proof.
  unfold placed.
  destruct (Nat.eqb_spec (List.length v) (Z.to_nat UINT16_IN_PACKET)) as [E|E].
  - intros H. assert (Hw : w = v) by congruence. subst w. exact E.
  - destruct (Nat.eqb (List.length v) 1); [|discriminate].
    intros H.
    assert (Hw : w = repeat (hd 0 v) (Z.to_nat UINT16_IN_PACKET))
      by congruence.
    subst w. apply repeat_length.
Qed.

Lemma placed_full (v : list Z) :
  List.length v = Z.to_nat UINT16_IN_PACKET -> placed v = Some v.
Proof. intros H. unfold placed. rewrite H, Nat.eqb_refl. reflexivity. Qed.

Lemma placed_uint16 (v w : list Z) :
  Forall uint16 v -> placed v = Some w -> Forall uint16 w.
Proof.
  intros Hv. unfold placed.
  destruct (Nat.eqb (List.length v) (Z.to_nat UINT16_IN_PACKET)).
  - intros H. assert (Hw : w = v) by congruence. subst w. exact Hv.
  - destruct (Nat.eqb_spec (List.length v) 1) as [E|E]; [|discriminate].
    intros H.
    assert (Hw : w = repeat (hd 0 v) (Z.to_nat UINT16_IN_PACKET))
      by congruence.
    subst w. apply Forall_repeat.
    destruct v as [|x v]; [discriminate|]. inversion Hv; assumption.
Qed.

Lemma slot_bounds (k : Z) :
  0 <= k < PACKETS_IN_FRAME_CLIPPED ->
  0 <= k * UINT16_IN_PACKET <= (k + 1) * UINT16_IN_PACKET
  /\ (k + 1) * UINT16_IN_PACKET <= wordsPerClippedFrame
  /\ wordsPerClippedFrame < UINT16_IN_FRAME
  /\ (k + 1) * UINT16_IN_PACKET - k * UINT16_IN_PACKET = UINT16_IN_PACKET.
Proof.
  rewrite PACKETS_IN_FRAME_CLIPPED_eq, UINT16_IN_PACKET_eq,
    wordsPerClippedFrame_eq, UINT16_IN_FRAME_eq.
  lia.
Qed.

(** The assignment of lines 179-182 in closed form: numpy's verdict on the
    payload decides alone, the slot being always inside the buffer. *)
Lemma setslice_slot (buf : list Z) (k : Z) (v : list Z) :
  Z.of_nat (List.length buf) = UINT16_IN_FRAME ->
  0 <= k < PACKETS_IN_FRAME_CLIPPED ->
  Np.setslice buf (k * UINT16_IN_PACKET) ((k + 1) * UINT16_IN_PACKET) v
  = match placed v with
    | Some w =>
      Some (firstn (Z.to_nat (k * UINT16_IN_PACKET)) buf ++ w
            ++ skipn (Z.to_nat ((k + 1) * UINT16_IN_PACKET)) buf)
    | None => None
    end.
Proof.
  intros Hbuf Hk. destruct (slot_bounds k Hk) as [H1 [H2 [H3 H4]]].
  unfold Np.setslice, placed.
  rewrite (clip_inside _ (k * UINT16_IN_PACKET)) by lia.
  rewrite (clip_inside _ ((k + 1) * UINT16_IN_PACKET)) by lia.
  rewrite Z.max_r by lia. rewrite H4.
  destruct (Nat.eqb (List.length v) (Z.to_nat UINT16_IN_PACKET));
    [reflexivity|].
  destruct (Nat.eqb (List.length v) 1); reflexivity.
Qed.

Lemma try_write_placed (buf : list Z) (k : Z) (v : list Z) :
  Z.of_nat (List.length buf) = UINT16_IN_FRAME ->
  0 <= k < PACKETS_IN_FRAME_CLIPPED ->
  try_write buf k v
  = match placed v with
    | Some w =>
      firstn (Z.to_nat (k * UINT16_IN_PACKET)) buf ++ w
      ++ skipn (Z.to_nat ((k + 1) * UINT16_IN_PACKET)) buf
    | None => buf
    end.
Proof.
  intros Hbuf Hk. unfold try_write. rewrite (setslice_slot _ _ _ Hbuf Hk).
  destruct (placed v); reflexivity.
Qed.

(** The slot written holds what numpy placed there, or what it held when
    the payload was refused. *)
Lemma slot_content_try_write_same (buf : list Z) (k : Z) (v : list Z) :
  Z.of_nat (List.length buf) = UINT16_IN_FRAME ->
  0 <= k < PACKETS_IN_FRAME_CLIPPED ->
  slot_content (try_write buf k v) k
  = match placed v with
    | Some w => w
    | None => slot_content buf k
    end.
Proof.
  intros Hbuf Hk. destruct (slot_bounds k Hk) as [H1 [H2 [H3 H4]]].
  rewrite (try_write_placed _ _ _ Hbuf Hk).
  destruct (placed v) as [w|] eqn:E; [|reflexivity].
  unfold slot_content. apply getslice_written; [lia|lia|].
  rewrite H4. apply (placed_length v), E.
Qed.

(** Every other slot reads as before. *)
Lemma slot_content_try_write_other (buf : list Z) (k j : Z) (v : list Z) :
  Z.of_nat (List.length buf) = UINT16_IN_FRAME ->
  0 <= k < PACKETS_IN_FRAME_CLIPPED ->
  0 <= j < PACKETS_IN_FRAME_CLIPPED ->
  j <> k ->
  slot_content (try_write buf k v) j = slot_content buf j.
Proof.
  intros Hbuf Hk Hj Hne.
  destruct (slot_bounds k Hk) as [H1 [H2 [H3 H4]]].
  destruct (slot_bounds j Hj) as [J1 [J2 [J3 J4]]].
  rewrite (try_write_placed _ _ _ Hbuf Hk).
  destruct (placed v) as [w|] eqn:E; [|reflexivity].
  unfold slot_content. apply getslice_splice_other; try lia.
  - rewrite H4. apply (placed_length v), E.
  - rewrite UINT16_IN_PACKET_eq. lia.
Qed.

(** No write reaches the samples past the clipped frame. *)
Lemma nth_try_write_outside (buf : list Z) (k : Z) (v : list Z) (i : nat) :
  Z.of_nat (List.length buf) = UINT16_IN_FRAME ->
  0 <= k < PACKETS_IN_FRAME_CLIPPED ->
  Z.of_nat i < k * UINT16_IN_PACKET \/ (k + 1) * UINT16_IN_PACKET <= Z.of_nat i ->
  nth i (try_write buf k v) 0 = nth i buf 0.
Proof.
  intros Hbuf Hk Hi. destruct (slot_bounds k Hk) as [H1 [H2 [H3 H4]]].
  rewrite (try_write_placed _ _ _ Hbuf Hk).
  destruct (placed v) as [w|] eqn:E; [|reflexivity].
  rewrite nth_splice; [|lia|lia|].
  - destruct (Nat.ltb_spec i (Z.to_nat (k * UINT16_IN_PACKET)));
      [reflexivity|].
    destruct (Nat.ltb_spec i (Z.to_nat ((k + 1) * UINT16_IN_PACKET)));
      [lia|reflexivity].
  - rewrite (placed_length v w E). lia.
Qed.

(** ** The buffer over a run of packets *)

Lemma nth_zeros (n : Z) (i : nat) : nth i (Np.zeros n) 0 = 0.
Proof.
  destruct (Nat.lt_ge_cases i (List.length (Np.zeros n))) as [H|H];
    [|apply nth_overflow; exact H].
  rewrite length_zeros in H.
  assert (Hi : 0 <= Z.of_nat i <= Z.of_nat i + 1) by lia.
  assert (Hn : Z.of_nat i + 1 <= n) by lia.
  pose proof (getslice_zeros n (Z.of_nat i) (Z.of_nat i + 1) Hi Hn) as Hg.
  rewrite getslice_inside in Hg by (rewrite ?length_zeros; lia).
  apply (f_equal (fun l => nth 0 l 0)) in Hg.
  rewrite nth_slice in Hg by (rewrite ?length_zeros; lia).
  rewrite nth_repeat in Hg.
  destruct (Nat.ltb_spec 0 (Z.to_nat (Z.of_nat i + 1) - Z.to_nat (Z.of_nat i)));
    [|lia].
  rewrite Nat.add_0_r, Nat2Z.id in Hg. exact Hg.
Qed.

Lemma wrap_counter_bounds (pr : Z) :
  0 <= pr <= PACKETS_IN_FRAME_CLIPPED ->
  0 <= wrap_counter (pr + 1) <= PACKETS_IN_FRAME_CLIPPED.
Proof. intros H. apply wrap_counter_range. lia. Qed.

(** Packets off a frame boundary, met while accumulating: each slot ends
    with what the last accepted packet aimed at it placed there, a slot no
    accepted packet aimed at keeps its content, and the samples past the
    clipped frame are not touched. *)
Lemma feed_accumulating_slots (mid : list packet) :
  Forall (fun p => boundary p = false) mid ->
  forall (buf : list Z) (pr : Z),
    Z.of_nat (List.length buf) = UINT16_IN_FRAME ->
    0 <= pr <= PACKETS_IN_FRAME_CLIPPED ->
    exists buf',
      feed (Accumulating buf pr) mid
      = Some (Accumulating buf'
                ((pr + Z.of_nat (List.length mid))
                   mod (PACKETS_IN_FRAME_CLIPPED + 1)),
              repeat NeedMore (List.length mid))
      /\ Z.of_nat (List.length buf') = UINT16_IN_FRAME
      /\ (forall k, 0 <= k < PACKETS_IN_FRAME_CLIPPED ->
            slot_content buf' k
            = match last_placed k mid with
              | Some w => w
              | None => slot_content buf k
              end)
      /\ (forall i, wordsPerClippedFrame <= Z.of_nat i ->
            nth i buf' 0 = nth i buf 0).
Proof.
  pose proof PACKETS_IN_FRAME_CLIPPED_eq as HP.
  induction 1 as [|p mid Hp _ IH]; intros buf pr Hbuf Hpr.
  - exists buf. cbn [feed List.length repeat last_placed].
    rewrite Z.add_0_r, Z.mod_small by lia. repeat split; auto.
  - pose proof (slot_in_range (packet_num p)) as Hs. fold (slot_of p) in Hs.
    set (buf1 := try_write buf (slot_of p) (packet_data p)).
    assert (Hbuf1 : Z.of_nat (List.length buf1) = UINT16_IN_FRAME).
    { unfold buf1. rewrite try_write_length. exact Hbuf. }
    destruct (IH buf1 (wrap_counter (pr + 1)) Hbuf1 (wrap_counter_bounds _ Hpr))
      as [buf' [Hfeed [Hlen [Hslots Htail]]]].
    exists buf'. split; [|split; [exact Hlen|split]].
    + cbn [feed]. rewrite (ingest_again _ _ _ Hp). fold buf1.
      rewrite Hfeed. cbn [List.length repeat]. do 2 f_equal. f_equal.
      rewrite (wrap_counter_mod _ Hpr).
      rewrite Z.add_mod_idemp_l by lia. f_equal. lia.
    + intros k Hk. rewrite (Hslots k Hk). cbn [last_placed].
      destruct (last_placed k mid) as [w|]; [reflexivity|].
      unfold buf1. destruct (Z.eqb_spec (slot_of p) k) as [E|E].
      * subst k. apply slot_content_try_write_same; assumption.
      * apply slot_content_try_write_other; auto.
    + intros i Hi. rewrite (Htail i Hi). unfold buf1.
      apply nth_try_write_outside; [exact Hbuf|exact Hs|].
      right. destruct (slot_bounds _ Hs) as [_ [H2 _]]. lia.
Qed.

(** The buffer the packet that starts a frame leaves, when numpy accepts
    its payload. *)
Lemma ingest_start_placed (p : packet) (w : list Z) :
  boundary p = true ->
  placed (packet_data p) = Some w ->
  ingest SeekingStart p
  = Step (Accumulating
            (try_write (Np.zeros UINT16_IN_FRAME) 0 (packet_data p)) 1)
         NeedMore.
Proof.
  intros Hb Hw. cbn [ingest]. unfold seek_body.
  unfold boundary in Hb. rewrite Hb.
  assert (Hz : Z.of_nat (List.length (Np.zeros UINT16_IN_FRAME))
               = UINT16_IN_FRAME).
  { rewrite length_zeros, UINT16_IN_FRAME_eq. lia. }
  assert (H0 : 0 <= 0 < PACKETS_IN_FRAME_CLIPPED)
    by (rewrite PACKETS_IN_FRAME_CLIPPED_eq; lia).
  unfold try_write.
  pose proof (setslice_slot _ 0 (packet_data p) Hz H0) as Hset.
  rewrite Hset.
  replace (0 * UINT16_IN_PACKET) with 0 in Hset by lia.
  replace ((0 + 1) * UINT16_IN_PACKET) with UINT16_IN_PACKET in Hset by lia.
  rewrite Hset, Hw. reflexivity.
Qed.

Lemma ingest_start_refused (p : packet) :
  boundary p = true ->
  placed (packet_data p) = None ->
  ingest SeekingStart p = Raised.
Proof.
  intros Hb Hw. cbn [ingest]. unfold seek_body.
  unfold boundary in Hb. rewrite Hb.
  assert (Hz : Z.of_nat (List.length (Np.zeros UINT16_IN_FRAME))
               = UINT16_IN_FRAME).
  { rewrite length_zeros, UINT16_IN_FRAME_eq. lia. }
  assert (H0 : 0 <= 0 < PACKETS_IN_FRAME_CLIPPED)
    by (rewrite PACKETS_IN_FRAME_CLIPPED_eq; lia).
  pose proof (setslice_slot _ 0 (packet_data p) Hz H0) as Hset.
  replace (0 * UINT16_IN_PACKET) with 0 in Hset by lia.
  replace ((0 + 1) * UINT16_IN_PACKET) with UINT16_IN_PACKET in Hset by lia.
  rewrite Hset, Hw. reflexivity.
Qed.

(** ** From the start of a frame to its end, with the frame's content *)

Lemma zeros_frame_length :
  Z.of_nat (List.length (Np.zeros UINT16_IN_FRAME)) = UINT16_IN_FRAME.
Proof. rewrite length_zeros, UINT16_IN_FRAME_eq. lia. Qed.

Lemma first_slot_in_range : 0 <= 0 < PACKETS_IN_FRAME_CLIPPED.
Proof. rewrite PACKETS_IN_FRAME_CLIPPED_eq. lia. Qed.

(** A frame opened and not yet closed: the state of the assembler. *)
Lemma feed_open_frame (pre mid : list packet) (start : packet)
  (w0 : list Z) :
  Forall (fun p => boundary p = false) pre ->
  boundary start = true ->
  placed (packet_data start) = Some w0 ->
  Forall (fun p => boundary p = false) mid ->
  exists buf,
    feed SeekingStart (pre ++ start :: mid)
    = Some (Accumulating buf
              ((1 + Z.of_nat (List.length mid))
                 mod (PACKETS_IN_FRAME_CLIPPED + 1)),
            repeat NeedMore (List.length pre + 1 + List.length mid))
    /\ Z.of_nat (List.length buf) = UINT16_IN_FRAME
    /\ (forall k, 0 <= k < PACKETS_IN_FRAME_CLIPPED ->
          slot_content buf k = expected_slot w0 mid k)
    /\ tail_zero buf.
Proof.
  intros Hpre Hs Hw Hmid.
  set (buf0 := try_write (Np.zeros UINT16_IN_FRAME) 0 (packet_data start)).
  assert (Hbuf0 : Z.of_nat (List.length buf0) = UINT16_IN_FRAME).
  { unfold buf0. rewrite try_write_length. apply zeros_frame_length. }
  destruct (feed_accumulating_slots mid Hmid buf0 1 Hbuf0)
    as [buf [Hfeed [Hlen [Hslots Htail]]]].
  { rewrite PACKETS_IN_FRAME_CLIPPED_eq. lia. }
  exists buf. split; [|split; [exact Hlen|split]].
  - rewrite feed_app, (feed_seeking_discard pre Hpre).
    cbn [feed]. rewrite (ingest_start_placed _ _ Hs Hw). fold buf0.
    rewrite Hfeed. do 2 f_equal.
    rewrite <- Nat.add_assoc, !repeat_app. reflexivity.
  - intros k Hk. rewrite (Hslots k Hk). unfold expected_slot.
    destruct (last_placed k mid) as [w|]; [reflexivity|].
    unfold buf0. destruct (Z.eqb_spec k 0) as [E|E].
    + subst k.
      rewrite (slot_content_try_write_same _ _ _ zeros_frame_length
                 first_slot_in_range).
      rewrite Hw. reflexivity.
    + rewrite (slot_content_try_write_other _ _ _ _ zeros_frame_length
                 first_slot_in_range Hk E).
      destruct (slot_bounds k Hk) as [H1 [H2 [H3 H4]]].
      unfold slot_content. rewrite getslice_zeros by lia.
      rewrite H4. reflexivity.
  - intros i Hi. rewrite (Htail i Hi). unfold buf0.
    rewrite nth_try_write_outside.
    + apply nth_zeros.
    + apply zeros_frame_length.
    + apply first_slot_in_range.
    + right. destruct (slot_bounds 0 first_slot_in_range) as [_ [H2 _]]. lia.
Qed.

Lemma decoded_app (e1 e2 : list recv_event) (p1 p2 : list packet) :
  decoded e1 p1 -> decoded e2 p2 -> decoded (e1 ++ e2) (p1 ++ p2).
Proof.
  unfold decoded. intros H1 H2. rewrite !map_app, H1, H2. reflexivity.
Qed.

Lemma decoded_cons (e : recv_event) (es : list recv_event) (p : packet)
  (ps : list packet) :
  _read_data_packet e = Some p -> decoded es ps ->
  decoded (e :: es) (p :: ps).
Proof. unfold decoded. intros H1 H2. cbn [map]. rewrite H1, H2. reflexivity. Qed.

(** What [read] returns on a frame received from start to end. *)
Lemma read_frame_cycle (self : session)
  (epre emid rest : list recv_event) (estart eclose : recv_event)
  (pre mid : list packet) (start closing : packet) (w0 : list Z) :
  decoded epre pre -> _read_data_packet estart = Some start ->
  decoded emid mid -> _read_data_packet eclose = Some closing ->
  Forall (fun p => boundary p = false) pre ->
  boundary start = true ->
  placed (packet_data start) = Some w0 ->
  Forall (fun p => boundary p = false) mid ->
  boundary closing = true ->
  exists f,
    read self (epre ++ estart :: emid ++ eclose :: rest)
    = (ReturnFrame f, mkSession (Some (reported_lost (List.length mid))))
    /\ Z.of_nat (List.length f) = UINT16_IN_FRAME
    /\ (forall k, 0 <= k < PACKETS_IN_FRAME_CLIPPED ->
          slot_content f k = expected_slot w0 mid k)
    /\ tail_zero f.
Proof.
  intros Dpre Dstart Dmid Dclose Hpre Hs Hw Hmid Hc.
  destruct (feed_open_frame pre mid start w0 Hpre Hs Hw Hmid)
    as [buf [Hfeed [Hlen [Hslots Htail]]]].
  exists buf. split; [|split; [exact Hlen|split; [exact Hslots|exact Htail]]].
  rewrite read_is_read_from.
  replace (epre ++ estart :: emid ++ eclose :: rest)
    with ((epre ++ estart :: emid) ++ eclose :: rest)
    by (rewrite <- app_assoc; reflexivity).
  rewrite (read_from_feed (epre ++ estart :: emid) (pre ++ start :: mid)
             SeekingStart _ _ self (eclose :: rest)
             (decoded_app _ _ _ _ Dpre (decoded_cons _ _ _ _ Dstart Dmid))
             Hfeed (frames_repeat_NeedMore _)).
  apply (read_from_frame self _ SeekingStart eclose closing rest buf
           (reported_lost (List.length mid)) Dclose).
  apply ingest_boundary, Hc.
Qed.

(** ** What a returned frame tells about the packets received *)

Lemma feed_accumulating_inv (mid : list packet) :
  forall (buf : list Z) (pr : Z) (st : state) (es : list event),
    feed (Accumulating buf pr) mid = Some (st, es) ->
    frames es = [] ->
    Forall (fun p => boundary p = false) mid
    /\ exists buf' pr', st = Accumulating buf' pr'.
Proof.
  induction mid as [|p mid IH]; intros buf pr st es Hfeed Hfr.
  - cbn [feed] in Hfeed. inversion Hfeed. split; [constructor|].
    exists buf, pr. reflexivity.
  - cbn [feed] in Hfeed. destruct (boundary p) eqn:Hb.
    + rewrite (ingest_boundary _ _ _ Hb) in Hfeed.
      destruct (feed SeekingStart mid) as [[st' es']|]; [|discriminate].
      inversion Hfeed; subst st es. discriminate Hfr.
    + rewrite (ingest_again _ _ _ Hb) in Hfeed.
      destruct (feed _ mid) as [[st' es']|] eqn:Hf; [|discriminate].
      inversion Hfeed; subst st es. cbn in Hfr.
      destruct (IH _ _ _ _ Hf Hfr) as [Hall Hst].
      split; [constructor; assumption|exact Hst].
Qed.

Lemma feed_seeking_inv (ps : list packet) :
  forall (st : state) (es : list event),
    feed SeekingStart ps = Some (st, es) ->
    frames es = [] ->
    (st = SeekingStart /\ Forall (fun p => boundary p = false) ps)
    \/ (exists pre start mid w0 buf pr,
          ps = pre ++ start :: mid
          /\ Forall (fun p => boundary p = false) pre
          /\ boundary start = true
          /\ placed (packet_data start) = Some w0
          /\ Forall (fun p => boundary p = false) mid
          /\ st = Accumulating buf pr).
Proof.
  induction ps as [|p ps IH]; intros st es Hfeed Hfr.
  - cbn [feed] in Hfeed. inversion Hfeed. left. split; [reflexivity|constructor].
  - cbn [feed] in Hfeed. destruct (boundary p) eqn:Hb.
    + destruct (placed (packet_data p)) as [w0|] eqn:Hw.
      * rewrite (ingest_start_placed _ _ Hb Hw) in Hfeed.
        destruct (feed (Accumulating _ _) ps) as [[st' es']|] eqn:Hf;
          [|discriminate].
        inversion Hfeed; subst st es. cbn in Hfr.
        destruct (feed_accumulating_inv _ _ _ _ _ Hf Hfr)
          as [Hall [buf' [pr' ->]]].
        right. exists [], p, ps, w0, buf', pr'.
        repeat split; auto.
      * rewrite (ingest_start_refused _ Hb Hw) in Hfeed. discriminate.
    + change (ingest SeekingStart p)
        with (match seek_body (Np.zeros UINT16_IN_FRAME) p with
              | SeekAgain => Step SeekingStart NeedMore
              | SeekBreak ret_frame packets_read =>
                Step (Accumulating ret_frame packets_read) NeedMore
              | SeekRaise => Raised
              end) in Hfeed.
      rewrite (seek_body_discard _ _ Hb) in Hfeed.
      destruct (feed SeekingStart ps) as [[st' es']|] eqn:Hf; [|discriminate].
      inversion Hfeed; subst st es. cbn in Hfr.
      destruct (IH _ _ eq_refl Hfr)
        as [[-> Hall]|[pre [start [mid [w0 [buf [pr [-> H]]]]]]]].
      * left. split; [reflexivity|constructor; assumption].
      * right. exists (p :: pre), start, mid, w0, buf, pr.
        destruct H as [H1 [H2 [H3 [H4 H5]]]].
        repeat split; auto.
Qed.

(** A frame returned by [read] was emitted by the assembler at some packet,
    after packets that emitted nothing. *)
Lemma read_from_frame_inv (evs : list recv_event) :
  forall (self : session) (st : state) (f : list Z) (s' : session),
    read_from self st evs = (ReturnFrame f, s') ->
    exists pre ev rest ps p st1 es lost,
      evs = pre ++ ev :: rest
      /\ decoded pre ps
      /\ feed st ps = Some (st1, es)
      /\ frames es = []
      /\ _read_data_packet ev = Some p
      /\ ingest st1 p = Step SeekingStart (FrameReady f lost)
      /\ s' = mkSession (Some lost).
Proof.
  induction evs as [|ev evs IH]; intros self st f s' H.
  - rewrite read_from_exhausted in H. discriminate.
  - destruct (_read_data_packet ev) as [p|] eqn:Hp.
    + destruct (ingest st p) as [st' [|f0 lost0]|] eqn:Hi.
      * rewrite (read_from_step self st st' ev p evs Hp Hi) in H.
        destruct (IH _ _ _ _ H)
          as [pre [ev' [rest [ps [p' [st1 [es [lost H']]]]]]]].
        destruct H' as [-> [Hd [Hf [Hfr [Hp' [Hi' ->]]]]]].
        exists (ev :: pre), ev', rest, (p :: ps), p', st1, (NeedMore :: es), lost.
        split; [reflexivity|]. split; [apply decoded_cons; assumption|].
        split; [cbn [feed]; rewrite Hi, Hf; reflexivity|].
        split; [exact Hfr|]. split; [exact Hp'|]. split; [exact Hi'|reflexivity].
      * rewrite (read_from_frame self st st' ev p evs f0 lost0 Hp Hi) in H.
        inversion H; subst f0 s'.
        assert (Hst : st' = SeekingStart).
        { destruct st as [|buf pr]; cbn [ingest] in Hi.
          - destruct (seek_body _ p); discriminate.
          - destruct (accumulate_body buf pr p); inversion Hi; reflexivity. }
        subst st'.
        exists [], ev, evs, [], p, st, [], lost0.
        repeat split; auto.
      * destruct st as [|buf pr]; cbn [read_from ingest] in *.
        -- cbn [seek_loop] in H. rewrite Hp in H.
           destruct (seek_body _ p); try discriminate.
        -- destruct (accumulate_body buf pr p); discriminate.
    + rewrite (read_from_no_packet self st ev evs Hp) in H. discriminate.
Qed.

Lemma decoded_app_inv (evs : list recv_event) (p1 p2 : list packet) :
  decoded evs (p1 ++ p2) ->
  exists e1 e2, evs = e1 ++ e2 /\ decoded e1 p1 /\ decoded e2 p2.
Proof.
  unfold decoded. rewrite map_app. intros H.
  apply map_eq_app in H. destruct H as [e1 [e2 [H [H1 H2]]]].
  exists e1, e2. auto.
Qed.

Lemma decoded_cons_inv (evs : list recv_event) (p : packet)
  (ps : list packet) :
  decoded evs (p :: ps) ->
  exists e es, evs = e :: es /\ _read_data_packet e = Some p /\ decoded es ps.
Proof.
  unfold decoded. cbn [map]. intros H.
  apply map_eq_cons in H. destruct H as [e [es [H [H1 H2]]]].
  exists e, es. auto.
Qed.

(** A frame returned by [read]: the events it was given, cut at the two
    boundary packets. *)
Lemma read_frame_shape (self : session) (evs : list recv_event)
  (f : list Z) (s' : session) :
  read self evs = (ReturnFrame f, s') ->
  exists epre estart emid eclose rest pre start mid closing w0,
    evs = epre ++ estart :: emid ++ eclose :: rest
    /\ decoded epre pre /\ _read_data_packet estart = Some start
    /\ decoded emid mid /\ _read_data_packet eclose = Some closing
    /\ Forall (fun p => boundary p = false) pre
    /\ boundary start = true
    /\ placed (packet_data start) = Some w0
    /\ Forall (fun p => boundary p = false) mid
    /\ boundary closing = true.
Proof.
  rewrite read_is_read_from. intros H.
  destruct (read_from_frame_inv _ _ _ _ _ H)
    as [E [ev [rest [ps [p [st1 [es [lost H']]]]]]]].
  destruct H' as [-> [Hd [Hf [Hfr [Hp [Hi _]]]]]].
  destruct (feed_seeking_inv _ _ _ Hf Hfr)
    as [[-> _]|[pre [start [mid [w0 [buf [pr [-> H']]]]]]]].
  - cbn [ingest] in Hi. destruct (seek_body _ p); discriminate.
  - destruct H' as [Hpre [Hs [Hw [Hmid ->]]]].
    destruct (decoded_app_inv _ _ _ Hd) as [epre [e2 [-> [Dpre D2]]]].
    destruct (decoded_cons_inv _ _ _ D2) as [estart [emid [-> [Dstart Dmid]]]].
    exists epre, estart, emid, ev, rest, pre, start, mid, p, w0.
    split; [rewrite <- app_assoc; reflexivity|].
    repeat (split; [assumption|]).
    destruct (boundary p) eqn:Hb; [reflexivity|].
    rewrite (ingest_again _ _ _ Hb) in Hi. discriminate.
Qed.

Lemma reported_lost_range (n : nat) :
  -1 <= reported_lost n <= PACKETS_IN_FRAME_CLIPPED - 1.
Proof.
  unfold reported_lost. pose proof PACKETS_IN_FRAME_CLIPPED_eq as HP.
  pose proof (Z.mod_pos_bound (1 + Z.of_nat n) (PACKETS_IN_FRAME_CLIPPED + 1)).
  lia.
Qed.

Lemma reported_lost_small (n : nat) :
  Z.of_nat n < PACKETS_IN_FRAME_CLIPPED ->
  reported_lost n = PACKETS_IN_FRAME_CLIPPED - 2 - Z.of_nat n.
Proof.
  intros H. unfold reported_lost. rewrite Z.mod_small by lia. lia.
Qed.

(** X1. A frame received from its start to its end: [read] returns it,
    whatever follows the closing packet. Packets before the first boundary
    packet are discarded; the frame has [UINT16_IN_FRAME] samples; each slot
    holds what the last accepted packet aimed at it placed there, slot 0
    otherwise what the starting packet placed, any other slot zeros; the
    samples past the clipped frame are zero; the loss count stored is the
    one of a frame with that many packets between its boundaries. *)
Theorem read_frame_content (self : session)
  (epre emid rest : list recv_event) (estart eclose : recv_event)
  (pre mid : list packet) (start closing : packet) (w0 : list Z) :
  decoded epre pre -> _read_data_packet estart = Some start ->
  decoded emid mid -> _read_data_packet eclose = Some closing ->
  Forall (fun p => boundary p = false) pre ->
  boundary start = true ->
  placed (packet_data start) = Some w0 ->
  Forall (fun p => boundary p = false) mid ->
  boundary closing = true ->
  exists f,
    read self (epre ++ estart :: emid ++ eclose :: rest)
    = (ReturnFrame f, mkSession (Some (reported_lost (List.length mid))))
    /\ Z.of_nat (List.length f) = UINT16_IN_FRAME
    /\ (forall k, 0 <= k < PACKETS_IN_FRAME_CLIPPED ->
          slot_content f k = expected_slot w0 mid k)
    /\ tail_zero f.
Proof. apply read_frame_cycle. Qed.

Lemma decoded_nil : decoded [] [].
Proof. reflexivity. Qed.

Lemma decoded_one (e : recv_event) (p : packet) :
  _read_data_packet e = Some p -> decoded [e] [p].
Proof. intros H. apply decoded_cons; [exact H|apply decoded_nil]. Qed.

Lemma read_frame_content_witness :
  decoded [Datagram sample_inner_datagram] [sample_inner]
  /\ boundary sample_start = true
  /\ placed (packet_data sample_start) = Some (constant_payload 257)
  /\ boundary sample_closing = true
  /\ exists f,
       read (mkSession None)
         ([Datagram sample_inner_datagram]
          ++ Datagram sample_start_datagram
          :: [Datagram sample_inner_datagram]
          ++ Datagram sample_closing_datagram :: [SocketTimeout])
       = (ReturnFrame f, mkSession (Some (reported_lost 1)))
       /\ slot_content f 1
          = expected_slot (constant_payload 257) [sample_inner] 1.
Proof.
  split; [apply decoded_one, decode_sample_inner|].
  split; [reflexivity|].
  split; [apply placed_full, constant_payload_length|].
  split; [reflexivity|].
  destruct (read_frame_content (mkSession None)
              [Datagram sample_inner_datagram]
              [Datagram sample_inner_datagram] [SocketTimeout]
              (Datagram sample_start_datagram)
              (Datagram sample_closing_datagram)
              [sample_inner] [sample_inner] sample_start sample_closing
              (constant_payload 257)
              (decoded_one _ _ decode_sample_inner) decode_sample_start
              (decoded_one _ _ decode_sample_inner) decode_sample_closing
              (repeat_inner_off_boundary 1) eq_refl
              (placed_full _ (constant_payload_length 257))
              (repeat_inner_off_boundary 1) eq_refl)
    as [f [Hread [_ [Hslots _]]]].
  exists f. split; [exact Hread|].
  apply Hslots. rewrite PACKETS_IN_FRAME_CLIPPED_eq. lia.
Defined.

(** X2. [read] returns a frame only when two of the packets it received sat
    on a frame boundary, every event before the second being a datagram
    that decodes; the frame and the loss count are then the ones X1
    describes, for the packets between the two. *)
Theorem read_frame_only_between_boundaries (self : session)
  (evs : list recv_event) (f : list Z) (s' : session) :
  read self evs = (ReturnFrame f, s') ->
  exists epre estart emid eclose rest pre start mid closing w0,
    evs = epre ++ estart :: emid ++ eclose :: rest
    /\ decoded epre pre /\ _read_data_packet estart = Some start
    /\ decoded emid mid /\ _read_data_packet eclose = Some closing
    /\ Forall (fun p => boundary p = false) pre
    /\ boundary start = true
    /\ placed (packet_data start) = Some w0
    /\ Forall (fun p => boundary p = false) mid
    /\ boundary closing = true
    /\ s' = mkSession (Some (reported_lost (List.length mid)))
    /\ (forall k, 0 <= k < PACKETS_IN_FRAME_CLIPPED ->
          slot_content f k = expected_slot w0 mid k).
Proof.
  intros H.
  destruct (read_frame_shape self evs f s' H)
    as [epre [estart [emid [eclose [rest [pre [start [mid [closing [w0 H']]]]]]]]]].
  destruct H' as [-> [D1 [D2 [D3 [D4 [H1 [H2 [H3 [H4 H5]]]]]]]]].
  destruct (read_frame_cycle self epre emid rest estart eclose pre mid start
              closing w0 D1 D2 D3 D4 H1 H2 H3 H4 H5)
    as [f' [Hread [_ [Hslots _]]]].
  rewrite Hread in H. inversion H; subst f' s'.
  exists epre, estart, emid, eclose, rest, pre, start, mid, closing, w0.
  repeat (split; [assumption || reflexivity|]). exact Hslots.
Qed.

Lemma read_frame_only_between_boundaries_witness :
  exists epre estart emid eclose rest,
    sample_events = epre ++ estart :: emid ++ eclose :: rest
    /\ exists start closing,
         _read_data_packet estart = Some start
         /\ _read_data_packet eclose = Some closing
         /\ boundary start = true /\ boundary closing = true.
Proof.
  destruct (read_frame_only_between_boundaries (mkSession None) sample_events
              _ _ (read_sample_events (mkSession None)))
    as [epre [estart [emid [eclose [rest [pre [start [mid [closing [w0 H]]]]]]]]]].
  destruct H as [E [_ [D2 [_ [D4 [_ [H2 [_ [_ [H5 _]]]]]]]]]].
  exists epre, estart, emid, eclose, rest. split; [exact E|].
  exists start, closing. auto.
Defined.

(** X3. The loss count a successful [read] stores lies between -1 and
    [PACKETS_IN_FRAME_CLIPPED - 1]: it is never below -1, however many
    packets came between the boundaries. *)
Theorem read_lost_packets_range (self : session) (evs : list recv_event)
  (f : list Z) (s' : session) :
  read self evs = (ReturnFrame f, s') ->
  exists lost,
    lost_packets s' = Some lost
    /\ -1 <= lost <= PACKETS_IN_FRAME_CLIPPED - 1.
Proof.
  intros H.
  destruct (read_frame_shape self evs f s' H)
    as [epre [estart [emid [eclose [rest [pre [start [mid [closing [w0 H']]]]]]]]]].
  destruct H' as [-> [D1 [D2 [D3 [D4 [H1 [H2 [H3 [H4 H5]]]]]]]]].
  destruct (read_frame_cycle self epre emid rest estart eclose pre mid start
              closing w0 D1 D2 D3 D4 H1 H2 H3 H4 H5)
    as [f' [Hread _]].
  rewrite Hread in H. inversion H; subst f' s'.
  exists (reported_lost (List.length mid)).
  split; [reflexivity|apply reported_lost_range].
Qed.

Lemma read_lost_packets_range_witness :
  read (mkSession None) sample_events
  = (ReturnFrame
       (packet_data sample_start
        ++ skipn (Z.to_nat UINT16_IN_PACKET) (Np.zeros UINT16_IN_FRAME)),
     mkSession (Some 538))
  /\ exists lost,
       lost_packets (mkSession (Some 538)) = Some lost
       /\ -1 <= lost <= PACKETS_IN_FRAME_CLIPPED - 1.
Proof.
  split; [apply read_sample_events|].
  exact (read_lost_packets_range (mkSession None) sample_events _ _
           (read_sample_events (mkSession None))).
Defined.

(** X4. In every frame [read] returns, the samples past the clipped frame,
    from index [wordsPerClippedFrame] to the end of the buffer, are zero:
    no packet is ever written there. *)
Theorem read_frame_tail_zero (self : session) (evs : list recv_event)
  (f : list Z) (s' : session) :
  read self evs = (ReturnFrame f, s') ->
  forall i : Z,
    wordsPerClippedFrame <= i < UINT16_IN_FRAME ->
    nth (Z.to_nat i) f 0 = 0.
Proof.
  intros H i Hi.
  destruct (read_frame_shape self evs f s' H)
    as [epre [estart [emid [eclose [rest [pre [start [mid [closing [w0 H']]]]]]]]]].
  destruct H' as [-> [D1 [D2 [D3 [D4 [H1 [H2 [H3 [H4 H5]]]]]]]]].
  destruct (read_frame_cycle self epre emid rest estart eclose pre mid start
              closing w0 D1 D2 D3 D4 H1 H2 H3 H4 H5)
    as [f' [Hread [_ [_ Htail]]]].
  rewrite Hread in H. inversion H; subst f' s'.
  apply Htail. pose proof wordsPerClippedFrame_eq. lia.
Qed.

Lemma read_frame_tail_zero_witness :
  read (mkSession None) sample_events
  = (ReturnFrame
       (packet_data sample_start
        ++ skipn (Z.to_nat UINT16_IN_PACKET) (Np.zeros UINT16_IN_FRAME)),
     mkSession (Some 538))
  /\ wordsPerClippedFrame <= 393200 < UINT16_IN_FRAME
  /\ nth (Z.to_nat 393200)
       (packet_data sample_start
        ++ skipn (Z.to_nat UINT16_IN_PACKET) (Np.zeros UINT16_IN_FRAME)) 0
     = 0.
Proof.
  split; [apply read_sample_events|].
  split; [rewrite wordsPerClippedFrame_eq, UINT16_IN_FRAME_eq; lia|].
  apply (read_frame_tail_zero (mkSession None) sample_events _ _
           (read_sample_events (mkSession None))).
  rewrite wordsPerClippedFrame_eq, UINT16_IN_FRAME_eq. lia.
Defined.

(** ** When [read] raises *)

Lemma read_from_raise (self : session) (st : state) (ev : recv_event)
  (p : packet) (evs : list recv_event) :
  _read_data_packet ev = Some p ->
  ingest st p = Raised ->
  read_from self st (ev :: evs) = (RaiseValueError, self).
Proof.
  intros Hp Hi. destruct st as [|buf pr]; cbn [read_from ingest] in *.
  - cbn [seek_loop]. rewrite Hp.
    destruct (seek_body (Np.zeros UINT16_IN_FRAME) p);
      try discriminate; reflexivity.
  - destruct (accumulate_body buf pr p); discriminate.
Qed.

(** Once a frame is started nothing raises any more. *)
Lemma accumulate_loop_never_raises (evs : list recv_event) :
  forall (self : session) (buf : list Z) (pr : Z) (s' : session),
    accumulate_loop self buf pr evs <> (RaiseValueError, s').
Proof.
  induction evs as [|ev evs IH]; intros self buf pr s'; cbn [accumulate_loop].
  - discriminate.
  - destruct (_read_data_packet ev) as [p|]; [|discriminate].
    destruct (accumulate_body buf pr p); [discriminate|apply IH].
Qed.

Lemma seek_loop_raise_inv (evs : list recv_event) :
  forall (self s' : session),
    seek_loop self (Np.zeros UINT16_IN_FRAME) evs = (RaiseValueError, s') ->
    s' = self
    /\ exists epre estart rest pre start,
         evs = epre ++ estart :: rest
         /\ decoded epre pre
         /\ Forall (fun p => boundary p = false) pre
         /\ _read_data_packet estart = Some start
         /\ boundary start = true
         /\ placed (packet_data start) = None.
Proof.
  induction evs as [|ev evs IH]; intros self s' H.
  - discriminate H.
  - cbn [seek_loop] in H.
    destruct (_read_data_packet ev) as [p|] eqn:Hp; [|discriminate].
    destruct (boundary p) eqn:Hb.
    + destruct (placed (packet_data p)) as [w0|] eqn:Hw.
      * pose proof (ingest_start_placed p w0 Hb Hw) as Hi.
        cbn [ingest] in Hi.
        destruct (seek_body (Np.zeros UINT16_IN_FRAME) p)
          as [|buf' pr'|]; try discriminate.
        exfalso. eapply accumulate_loop_never_raises. exact H.
      * split.
        -- pose proof (ingest_start_refused p Hb Hw) as Hi.
           cbn [ingest] in Hi.
           destruct (seek_body (Np.zeros UINT16_IN_FRAME) p);
             try discriminate.
           inversion H. reflexivity.
        -- exists [], ev, evs, [], p.
           split; [reflexivity|]. split; [apply decoded_nil|].
           split; [constructor|]. auto.
    + rewrite (seek_body_discard _ _ Hb) in H.
      destruct (IH _ _ H) as [-> [epre [estart [rest [pre [start H']]]]]].
      destruct H' as [-> [D [Hall [Hs [Hbs Hw]]]]].
      split; [reflexivity|].
      exists (ev :: epre), estart, rest, (p :: pre), start.
      split; [reflexivity|]. split; [apply decoded_cons; assumption|].
      split; [constructor; assumption|]. auto.
Qed.

(** X5. [read] raises exactly when the first boundary packet it receives,
    every event before it being a datagram that decodes, carries a payload
    numpy cannot assign to the first slot (neither [UINT16_IN_PACKET]
    samples nor one sample); the session is then left as it was. Later
    packets with such a payload never make it raise. *)
Theorem read_raises_iff (self : session) (evs : list recv_event)
  (s' : session) :
  read self evs = (RaiseValueError, s')
  <-> (s' = self
       /\ exists epre estart rest pre start,
            evs = epre ++ estart :: rest
            /\ decoded epre pre
            /\ Forall (fun p => boundary p = false) pre
            /\ _read_data_packet estart = Some start
            /\ boundary start = true
            /\ placed (packet_data start) = None).
Proof.
  split.
  - unfold read. apply seek_loop_raise_inv.
  - intros [-> [epre [estart [rest [pre [start H]]]]]].
    destruct H as [-> [D [Hall [Hs [Hb Hw]]]]].
    rewrite read_is_read_from.
    rewrite (read_from_feed epre pre SeekingStart SeekingStart
               (repeat NeedMore (List.length pre)) self (estart :: rest) D
               (feed_seeking_discard pre Hall) (frames_repeat_NeedMore _)).
    apply (read_from_raise self SeekingStart estart start rest Hs).
    apply ingest_start_refused; assumption.
Qed.

(** ** Decoding a datagram *)

Lemma decode_header_short (d : list byte) :
  (List.length d < 10)%nat -> decode_header d = None.
Proof.
  intros H. unfold decode_header, Struct.unpack_lt_1l, Struct.unpack_gt_Q.
  destruct (Nat.eqb_spec (List.length (firstn 4 d)) 4) as [E|E];
    [|reflexivity].
  destruct (Nat.eqb_spec
              (List.length ([x00; x00] ++ rev (Bytes.slice 4 10 d))) 8)
    as [E'|E']; [|reflexivity].
  exfalso. rewrite length_app, length_rev in E'. unfold Bytes.slice in E'.
  rewrite length_firstn, length_skipn in E'. cbn [List.length] in E'. lia.
Qed.

Lemma decode_header_None_iff (d : list byte) :
  decode_header d = None <-> (List.length d < 10)%nat.
Proof.
  split.
  - intros H. destruct (Nat.lt_ge_cases (List.length d) 10) as [L|L];
      [exact L|].
    rewrite (decode_header_ten d L) in H. discriminate.
  - apply decode_header_short.
Qed.

(** [np.frombuffer] on [n] bytes at most: it fails exactly on an odd
    number of bytes, and otherwise reads one little-endian word from every
    two bytes. *)
Lemma frombuffer_uint16_spec (n : nat) :
  forall bs : list byte,
    (List.length bs <= n)%nat ->
    if Nat.even (List.length bs) then
      exists ws,
        Np.frombuffer_uint16 bs = Some ws
        /\ List.length ws = (List.length bs / 2)%nat
        /\ forall k, (k < List.length ws)%nat ->
             nth k ws 0
             = Bytes.to_Z (nth (2 * k) bs x00)
               + 256 * Bytes.to_Z (nth (2 * k + 1) bs x00)
    else Np.frombuffer_uint16 bs = None.
Proof.
  induction n as [|n IH]; intros bs Hn.
  - destruct bs; [|cbn in Hn; lia].
    cbn. exists []. repeat split; auto. intros k Hk. cbn in Hk. lia.
  - destruct bs as [|b0 [|b1 bs]].
    + cbn. exists []. repeat split; auto. intros k Hk. cbn in Hk. lia.
    + reflexivity.
    + rewrite frombuffer_uint16_pair.
      assert (Hbs : (List.length bs <= n)%nat) by (cbn in Hn; lia).
      specialize (IH bs Hbs).
      change (Nat.even (List.length (b0 :: b1 :: bs)))
        with (Nat.even (List.length bs)).
      destruct (Nat.even (List.length bs)).
      * destruct IH as [ws [Hws [Hlen Hnth]]]. rewrite Hws.
        exists (Bytes.to_Z b0 + 256 * Bytes.to_Z b1 :: ws).
        split; [reflexivity|]. split.
        -- cbn [List.length]. rewrite Hlen.
           change (S (S (List.length bs))) with (2 + List.length bs)%nat.
           replace (2 + List.length bs)%nat
             with (1 * 2 + List.length bs)%nat by lia.
           rewrite Nat.div_add_l by lia. reflexivity.
        -- intros [|k] Hk; [reflexivity|].
           cbn [List.length] in Hk.
           replace (2 * S k)%nat with (S (S (2 * k))) by lia.
           replace (S (S (2 * k)) + 1)%nat with (S (S (2 * k + 1))) by lia.
           cbn [nth]. apply Hnth. lia.
      * rewrite IH. reflexivity.
Qed.

Lemma frombuffer_uint16_None_iff (bs : list byte) :
  Np.frombuffer_uint16 bs = None <-> Nat.odd (List.length bs) = true.
Proof.
  pose proof (frombuffer_uint16_spec (List.length bs) bs (Nat.le_refl _)) as H.
  rewrite <- Nat.negb_even. destruct (Nat.even (List.length bs)).
  - destruct H as [ws [Hws _]]. rewrite Hws. split; discriminate.
  - split; auto.
Qed.

(** X6. [_read_data_packet] yields no packet exactly on a timeout, on an
    error of the socket, on a datagram shorter than the 10-byte header and
    on a datagram whose payload has an odd number of bytes. *)
Theorem read_data_packet_fails_iff (ev : recv_event) :
  _read_data_packet ev = None
  <-> match ev with
      | Datagram d =>
        (List.length d < 10)%nat \/ Nat.odd (List.length d - 10) = true
      | SocketTimeout => True
      | SocketError => True
      end.
Proof.
  destruct ev as [d| |]; [|split; auto|split; auto].
  unfold _read_data_packet.
  destruct (decode_header d) as [[n c]|] eqn:Hd.
  - assert (Hlen : ~ (List.length d < 10)%nat).
    { intros L. apply decode_header_None_iff in L. congruence. }
    rewrite <- (length_skipn 10 d), <- frombuffer_uint16_None_iff.
    destruct (Np.frombuffer_uint16 (skipn 10 d)).
    + split; [discriminate|]. intros [L|E]; [contradiction|discriminate].
    + split; auto.
  - apply decode_header_None_iff in Hd. split; auto.
Qed.

Lemma as_int32_range (u : Z) :
  0 <= u < 2 ^ 32 -> - 2 ^ 31 <= as_int32 u < 2 ^ 31.
Proof. intros H. unfold as_int32. destruct (u <? 2 ^ 31) eqn:E; lia. Qed.

Lemma sequence_number_range (d : list byte) :
  0 <= little_endian_sum d 0 4 < 2 ^ 32.
Proof.
  cbv [little_endian_sum byte_at Nat.add]. simpl Z.of_nat.
  pose proof (to_Z_range (nth 0 d x00)). pose proof (to_Z_range (nth 1 d x00)).
  pose proof (to_Z_range (nth 2 d x00)). pose proof (to_Z_range (nth 3 d x00)).
  lia.
Qed.

Lemma read_data_packet_fields (d : list byte) (p : packet) :
  _read_data_packet (Datagram d) = Some p ->
  - 2 ^ 31 <= packet_num p < 2 ^ 31
  /\ 0 <= byte_count p < 2 ^ 48
  /\ (10 <= List.length d)%nat
  /\ List.length (packet_data p) = ((List.length d - 10) / 2)%nat
  /\ (forall k, (k < List.length (packet_data p))%nat ->
        nth k (packet_data p) 0
        = byte_at d (10 + 2 * k) + 256 * byte_at d (10 + 2 * k + 1))
  /\ Forall uint16 (packet_data p).
Proof.
  intros H.
  assert (Hlen : (10 <= List.length d)%nat).
  { destruct (Nat.lt_ge_cases (List.length d) 10) as [L|L]; [|exact L].
    exfalso. unfold _read_data_packet in H.
    rewrite (decode_header_short d L) in H. discriminate. }
  pose proof (read_data_packet_uint16 _ _ H) as Hu.
  unfold _read_data_packet in H. rewrite (decode_header_ten d Hlen) in H.
  pose proof (frombuffer_uint16_spec _ (skipn 10 d) (Nat.le_refl _)) as Hf.
  destruct (Np.frombuffer_uint16 (skipn 10 d)) as [ws|] eqn:E; [|discriminate].
  destruct (Nat.even (List.length (skipn 10 d))); [|discriminate].
  destruct Hf as [ws' [Hws [Hl Hnth]]].
  assert (ws' = ws) by congruence. subst ws'.
  assert (Hp : p = mkPacket (as_int32 (little_endian_sum d 0 4))
                            (little_endian_sum d 4 6) ws) by congruence.
  subst p. cbn [packet_num byte_count packet_data] in *.
  split; [apply as_int32_range, sequence_number_range|].
  split; [apply byte_count_range|]. split; [exact Hlen|].
  split; [rewrite Hl, length_skipn; reflexivity|].
  split; [|exact Hu].
  intros k Hk. rewrite (Hnth k Hk). unfold byte_at.
  rewrite !nth_skipn. do 3 f_equal; lia.
Qed.

(** X7. A datagram that decodes gives a packet whose sequence number is an
    int32, whose byte count is below 2^48, and whose payload has one sample
    for every two bytes after the header, sample [k] being bytes
    [10 + 2k] and [11 + 2k] read little-endian, hence a uint16. *)
Theorem read_data_packet_payload (d : list byte) (p : packet) :
  _read_data_packet (Datagram d) = Some p ->
  - 2 ^ 31 <= packet_num p < 2 ^ 31
  /\ 0 <= byte_count p < 2 ^ 48
  /\ (10 <= List.length d)%nat
  /\ List.length (packet_data p) = ((List.length d - 10) / 2)%nat
  /\ (forall k, (k < List.length (packet_data p))%nat ->
        nth k (packet_data p) 0
        = byte_at d (10 + 2 * k) + 256 * byte_at d (10 + 2 * k + 1))
  /\ Forall uint16 (packet_data p).
Proof. apply read_data_packet_fields. Qed.

Lemma read_data_packet_payload_witness :
  _read_data_packet (Datagram sample_closing_datagram) = Some sample_closing
  /\ List.length (packet_data sample_closing)
     = ((List.length sample_closing_datagram - 10) / 2)%nat.
Proof.
  split; [apply decode_sample_closing|].
  apply (read_data_packet_payload sample_closing_datagram sample_closing
           decode_sample_closing).
Defined.

Lemma nominal_payload_placed (d : list byte) (p : packet) :
  nominal (Datagram d) ->
  _read_data_packet (Datagram d) = Some p ->
  placed (packet_data p) = Some (packet_data p).
Proof.
  intros Hn Hp. apply placed_full.
  destruct (read_data_packet_fields d p Hp) as [_ [_ [_ [Hl _]]]].
  rewrite Hl. cbn [nominal] in Hn.
  assert (Hd : List.length d = 1466%nat).
  { change BYTES_IN_PACKET with 1456 in Hn. lia. }
  rewrite Hd. reflexivity.
Qed.

(** X8. A packet decoded from a datagram of the nominal size, 10 bytes of
    header and [BYTES_IN_PACKET] bytes of samples, carries exactly
    [UINT16_IN_PACKET] samples, so that neither slice assignment of [read]
    refuses it: on a frame boundary it opens a frame whose slot 0 is its
    payload (the assignment of line 164 does not raise), and off a boundary,
    while a frame is being filled, its payload is written to its slot, not
    dropped (lines 179-182). *)
Theorem nominal_packet_always_placed (d : list byte) (p : packet) :
  nominal (Datagram d) ->
  _read_data_packet (Datagram d) = Some p ->
  List.length (packet_data p) = Z.to_nat UINT16_IN_PACKET
  /\ (boundary p = true ->
      exists buf',
        ingest SeekingStart p = Step (Accumulating buf' 1) NeedMore
        /\ Z.of_nat (List.length buf') = UINT16_IN_FRAME
        /\ slot_content buf' 0 = packet_data p)
  /\ (forall (buf : list Z) (pr : Z),
        Z.of_nat (List.length buf) = UINT16_IN_FRAME ->
        boundary p = false ->
        exists buf',
          ingest (Accumulating buf pr) p
          = Step (Accumulating buf' (wrap_counter (pr + 1))) NeedMore
          /\ Z.of_nat (List.length buf') = UINT16_IN_FRAME
          /\ slot_content buf' (slot_of p) = packet_data p).
Proof.
  intros Hn Hp.
  pose proof (nominal_payload_placed d p Hn Hp) as Hw.
  split; [apply (placed_length _ _ Hw)|]. split.
  - intros Hb.
    exists (try_write (Np.zeros UINT16_IN_FRAME) 0 (packet_data p)).
    split; [apply (ingest_start_placed p _ Hb Hw)|].
    split; [rewrite try_write_length; apply zeros_frame_length|].
    rewrite (slot_content_try_write_same _ _ _ zeros_frame_length
               first_slot_in_range), Hw.
    reflexivity.
  - intros buf pr Hbuf Hb.
    exists (try_write buf (slot_of p) (packet_data p)).
    split; [apply ingest_again; exact Hb|].
    split; [rewrite try_write_length; exact Hbuf|].
    rewrite (slot_content_try_write_same _ _ _ Hbuf
               (slot_in_range (packet_num p))), Hw.
    reflexivity.
Qed.

Lemma sample_inner_datagram_nominal : nominal (Datagram sample_inner_datagram).
Proof.
  cbn [nominal]. unfold sample_inner_datagram.
  rewrite length_app, repeat_length. reflexivity.
Qed.

Lemma nominal_packet_always_placed_witness :
  nominal (Datagram sample_inner_datagram)
  /\ _read_data_packet (Datagram sample_inner_datagram) = Some sample_inner
  /\ List.length (packet_data sample_inner) = Z.to_nat UINT16_IN_PACKET.
Proof.
  split; [apply sample_inner_datagram_nominal|].
  split; [apply decode_sample_inner|].
  apply (nominal_packet_always_placed sample_inner_datagram sample_inner
           sample_inner_datagram_nominal decode_sample_inner).
Defined.

(** ** The first frame of a capture, received in order with losses *)

Lemma stream_packet_off_boundary (payload : Z -> list Z) (i : Z) :
  2 <= i <= PACKETS_IN_FRAME_CLIPPED ->
  boundary (stream_packet payload i) = false.
Proof.
  intros Hi. unfold boundary, stream_packet. cbn [byte_count].
  pose proof PACKETS_IN_FRAME_CLIPPED_eq as HP.
  rewrite BYTES_IN_FRAME_CLIPPED_eq. change BYTES_IN_PACKET with 1456.
  rewrite Z.mod_small by lia. apply Z.eqb_neq. lia.
Qed.

Lemma stream_packet_slot (payload : Z -> list Z) (i : Z) :
  1 <= i <= PACKETS_IN_FRAME_CLIPPED ->
  slot_of (stream_packet payload i) = i - 1.
Proof.
  intros Hi. unfold slot_of, stream_packet. cbn [packet_num].
  apply Z.mod_small. lia.
Qed.

Lemma stream_packets_cons (payload : Z -> list Z) (a n : nat) :
  stream_packets payload a (S n)
  = stream_packet payload (Z.of_nat a) :: stream_packets payload (S a) n.
Proof. reflexivity. Qed.

(** What the packets delivered in order leave for slot [k]. *)
Lemma last_placed_stream (payload : Z -> list Z) (arrived : Z -> bool)
  (k : Z) (n : nat) :
  forall a : nat,
    (1 <= a)%nat ->
    Z.of_nat (a + n) <= PACKETS_IN_FRAME_CLIPPED + 1 ->
    (forall i, Z.of_nat a <= i < Z.of_nat (a + n) ->
               List.length (payload i) = Z.to_nat UINT16_IN_PACKET) ->
    last_placed k
      (filter (fun p => arrived (packet_num p)) (stream_packets payload a n))
    = if (Z.of_nat a <=? k + 1) && (k + 1 <? Z.of_nat (a + n))
         && arrived (k + 1)
      then Some (payload (k + 1)) else None.
Proof.
  induction n as [|n IH]; intros a Ha Hn Hlen.
  - cbn [stream_packets seq map filter last_placed].
    destruct (Z.leb_spec (Z.of_nat a) (k + 1));
      destruct (Z.ltb_spec (k + 1) (Z.of_nat (a + 0))); cbn; try reflexivity.
    lia.
  - rewrite stream_packets_cons. cbn [filter].
    assert (IH' := IH (S a)).
    replace (S a + n)%nat with (a + S n)%nat in IH' by lia.
    specialize (IH' ltac:(lia) Hn ltac:(intros; apply Hlen; lia)).
    assert (Hslot : slot_of (stream_packet payload (Z.of_nat a))
                    = Z.of_nat a - 1)
      by (apply stream_packet_slot; lia).
    assert (Hpl : placed (payload (Z.of_nat a)) = Some (payload (Z.of_nat a)))
      by (apply placed_full, Hlen; lia).
    change (arrived (packet_num (stream_packet payload (Z.of_nat a))))
      with (arrived (Z.of_nat a)).
    assert (Hleb : k + 1 <> Z.of_nat a ->
                   (Z.of_nat (S a) <=? k + 1) = (Z.of_nat a <=? k + 1)).
    { intros Hne. destruct (Z.leb_spec (Z.of_nat (S a)) (k + 1));
        destruct (Z.leb_spec (Z.of_nat a) (k + 1)); lia || reflexivity. }
    assert (Hsame : k + 1 = Z.of_nat a ->
                    (Z.of_nat (S a) <=? k + 1) = false
                    /\ (Z.of_nat a <=? k + 1) = true
                    /\ (k + 1 <? Z.of_nat (a + S n)) = true).
    { intros He. split; [apply Z.leb_gt; lia|].
      split; [apply Z.leb_le; lia|apply Z.ltb_lt; lia]. }
    clear IH.
    destruct (arrived (Z.of_nat a)) eqn:Harr.
    + cbn [last_placed]. rewrite IH', Hslot.
      change (packet_data (stream_packet payload (Z.of_nat a)))
        with (payload (Z.of_nat a)).
      destruct (Z.eqb_spec (Z.of_nat a - 1) k) as [E|E].
      * destruct (Hsame ltac:(lia)) as [H1 [H2 H3]].
        rewrite H1, H2, H3. cbn [andb].
        replace (k + 1) with (Z.of_nat a) by lia.
        rewrite Harr, Hpl. reflexivity.
      * rewrite (Hleb ltac:(lia)).
        destruct ((Z.of_nat a <=? k + 1) && (k + 1 <? Z.of_nat (a + S n))
                  && arrived (k + 1)); reflexivity.
    + rewrite IH'.
      destruct (Z.eq_dec (k + 1) (Z.of_nat a)) as [E|E].
      * destruct (Hsame E) as [H1 [H2 H3]].
        rewrite H1, H2, H3. cbn [andb]. rewrite E, Harr. reflexivity.
      * rewrite (Hleb E). reflexivity.
Qed.

(** The assembler over a frame from its start to its end, with the
    frame's content. *)
Lemma feed_frame_cycle_content (pre mid : list packet)
  (start closing : packet) (w0 : list Z) :
  Forall (fun p => boundary p = false) pre ->
  boundary start = true ->
  placed (packet_data start) = Some w0 ->
  Forall (fun p => boundary p = false) mid ->
  boundary closing = true ->
  exists f,
    feed SeekingStart (pre ++ start :: mid ++ [closing])
    = Some (SeekingStart,
            repeat NeedMore (List.length pre + 1 + List.length mid)
            ++ [FrameReady f (reported_lost (List.length mid))])
    /\ Z.of_nat (List.length f) = UINT16_IN_FRAME
    /\ (forall k, 0 <= k < PACKETS_IN_FRAME_CLIPPED ->
          slot_content f k = expected_slot w0 mid k)
    /\ tail_zero f.
Proof.
  intros Hpre Hs Hw Hmid Hc.
  destruct (feed_open_frame pre mid start w0 Hpre Hs Hw Hmid)
    as [buf [Hfeed [Hlen [Hslots Htail]]]].
  exists buf. split; [|split; [exact Hlen|split; [exact Hslots|exact Htail]]].
  replace (pre ++ start :: mid ++ [closing])
    with ((pre ++ start :: mid) ++ [closing])
    by (rewrite <- app_assoc; reflexivity).
  rewrite feed_app, Hfeed. cbn [feed].
  rewrite (ingest_boundary _ _ _ Hc). reflexivity.
Qed.

(** C5 (as the code has it): the frame emitted at the closing boundary
    packet reports [PACKETS_IN_FRAME_CLIPPED - packets_read], unclamped,
    whatever the payload that opened the frame, full-size or one sample.
    With [n] packets from the frame's start to the closing packet, both
    included, [packets_read] is [n] as long as [n] is at most one more than
    the frame's packet count, which gives -1 at that bound; past it the
    counter has restarted from 0 each time it exceeded the packet count, so
    that in general [packets_read = (n - 1) mod (PACKETS_IN_FRAME_CLIPPED + 1) + 1]. *)
Theorem lost_packets_reported (pre mid : list packet) (start closing : packet)
  (w0 : list Z) :
  Forall (fun p => boundary p = false) pre ->
  boundary start = true ->
  placed (packet_data start) = Some w0 ->
  Forall (fun p => boundary p = false) mid ->
  boundary closing = true ->
  let n := Z.of_nat (List.length (start :: mid ++ [closing])) in
  exists buf lost,
    feed SeekingStart (pre ++ start :: mid ++ [closing])
    = Some (SeekingStart,
            repeat NeedMore (List.length pre + 1 + List.length mid)
            ++ [FrameReady buf lost])
    /\ lost = PACKETS_IN_FRAME_CLIPPED
              - ((n - 1) mod (PACKETS_IN_FRAME_CLIPPED + 1) + 1)
    /\ (n <= PACKETS_IN_FRAME_CLIPPED + 1 ->
        lost = PACKETS_IN_FRAME_CLIPPED - n)
    /\ -1 <= lost < PACKETS_IN_FRAME_CLIPPED.
Proof.
  intros Hpre Hs Hw Hmid Hc n.
  destruct (feed_frame_cycle_content pre mid start closing w0
              Hpre Hs Hw Hmid Hc) as [buf [Hfeed _]].
  assert (Hn : n - 1 = 1 + Z.of_nat (List.length mid)).
  { unfold n. cbn [List.length]. rewrite length_app. cbn [List.length]. lia. }
  pose proof PACKETS_IN_FRAME_CLIPPED_eq as HP.
  pose proof (Z.mod_pos_bound (n - 1) (PACKETS_IN_FRAME_CLIPPED + 1)) as Hm.
  exists buf. eexists. split; [exact Hfeed|].
  unfold reported_lost. rewrite <- Hn. split; [reflexivity|]. split.
  - intros Hle. rewrite Z.mod_small by lia. lia.
  - lia.
Qed.

(** A frame opened by a one-sample payload and closed after a full count of
    packets: the payload is spread over slot 0 and the count reported is
    -1. *)
Lemma lost_packets_reported_witness :
  Forall (fun p => boundary p = false) [sample_inner]
  /\ boundary (mkPacket 1 0 [257]) = true
  /\ placed (packet_data (mkPacket 1 0 [257]))
     = Some (repeat 257 (Z.to_nat UINT16_IN_PACKET))
  /\ Forall (fun p => boundary p = false) (repeat sample_inner 539)
  /\ boundary sample_closing = true
  /\ exists buf,
       feed SeekingStart
         ([sample_inner] ++ mkPacket 1 0 [257] :: repeat sample_inner 539
          ++ [sample_closing])
       = Some (SeekingStart, repeat NeedMore (1 + 1 + 539)
                             ++ [FrameReady buf (-1)]).
Proof.
  split; [apply (repeat_inner_off_boundary 1)|].
  split; [reflexivity|].
  split; [reflexivity|].
  split; [apply repeat_inner_off_boundary|].
  split; [reflexivity|].
  destruct (lost_packets_reported [sample_inner] (repeat sample_inner 539)
              (mkPacket 1 0 [257]) sample_closing
              (repeat 257 (Z.to_nat UINT16_IN_PACKET))
              (repeat_inner_off_boundary 1) eq_refl eq_refl
              (repeat_inner_off_boundary 539) eq_refl)
    as [buf [lost [Hfeed [_ [Hlost _]]]]].
  exists buf. rewrite Hfeed.
  rewrite Hlost.
  - cbn [List.length]. rewrite length_app, repeat_length. reflexivity.
  - cbn [List.length]. rewrite length_app, repeat_length. vm_compute.
    discriminate.
Defined.

Lemma length_filter_map {A B : Type} (g : A -> B) (q : B -> bool)
  (l : list A) :
  List.length (filter q (map g l))
  = List.length (filter (fun x => q (g x)) l).
Proof.
  induction l as [|x l IH]; [reflexivity|].
  cbn [map filter]. destruct (q (g x)); cbn [List.length]; rewrite IH;
    reflexivity.
Qed.

Lemma delivered_length (payload : Z -> list Z) (arrived : Z -> bool) :
  (List.length (delivered payload arrived) + missing arrived = 539)%nat.
Proof.
  unfold delivered, stream_packets, missing.
  rewrite length_filter_map.
  change (fun x : nat =>
            arrived (packet_num (stream_packet payload (Z.of_nat x))))
    with (fun x : nat => arrived (Z.of_nat x)).
  rewrite (filter_length (fun i => arrived (Z.of_nat i)) (seq 2 539)).
  apply length_seq.
Qed.

Lemma stream_packets_off_boundary (payload : Z -> list Z) (n : nat) :
  forall a : nat,
    (2 <= a)%nat -> (a + n <= 541)%nat ->
    Forall (fun p => boundary p = false) (stream_packets payload a n).
Proof.
  induction n as [|n IH]; intros a Ha Hn.
  - constructor.
  - rewrite stream_packets_cons. constructor.
    + apply stream_packet_off_boundary.
      rewrite PACKETS_IN_FRAME_CLIPPED_eq. lia.
    + apply IH; lia.
Qed.

Lemma Forall_filter_keep {A : Type} (P : A -> Prop) (q : A -> bool)
  (l : list A) :
  Forall P l -> Forall P (filter q l).
Proof.
  induction 1 as [|x l Hx _ IH]; cbn [filter]; [constructor|].
  destruct (q x); [constructor; assumption|exact IH].
Qed.

Lemma delivered_off_boundary (payload : Z -> list Z) (arrived : Z -> bool) :
  Forall (fun p => boundary p = false) (delivered payload arrived).
Proof.
  unfold delivered. apply Forall_filter_keep.
  apply stream_packets_off_boundary; lia.
Qed.

(** X9. The first frame of a capture received in order, some of packets 2
    to 540 being lost: the assembler emits one frame, at packet 541; slot 0
    holds packet 1's payload, the slot of every packet that arrived holds
    its payload, the slot of every lost packet is zero, and the loss count
    is one less than the number of packets lost (-1 when none was). *)
Theorem first_frame_in_order (payload : Z -> list Z) (arrived : Z -> bool) :
  (forall i, 1 <= i <= PACKETS_IN_FRAME_CLIPPED ->
             List.length (payload i) = Z.to_nat UINT16_IN_PACKET) ->
  exists f,
    feed SeekingStart (first_frame_received payload arrived)
    = Some (SeekingStart,
            repeat NeedMore (540 - missing arrived)
            ++ [FrameReady f (Z.of_nat (missing arrived) - 1)])
    /\ slot_content f 0 = payload 1
    /\ forall i, 2 <= i <= PACKETS_IN_FRAME_CLIPPED ->
         slot_content f (i - 1)
         = if arrived i then payload i
           else repeat 0 (Z.to_nat UINT16_IN_PACKET).
Proof.
  intros Hlen. pose proof PACKETS_IN_FRAME_CLIPPED_eq as HP.
  pose proof (delivered_length payload arrived) as Hd.
  destruct (feed_frame_cycle_content [] (delivered payload arrived)
              (stream_packet payload 1) (stream_packet payload 541)
              (payload 1) (Forall_nil _) eq_refl
              (placed_full _ (Hlen 1 ltac:(lia)))
              (delivered_off_boundary payload arrived) eq_refl)
    as [f [Hfeed [_ [Hslots _]]]].
  assert (Hlast : forall k,
             last_placed k (delivered payload arrived)
             = if (2 <=? k + 1) && (k + 1 <? 541) && arrived (k + 1)
               then Some (payload (k + 1)) else None).
  { intros k.
    apply (last_placed_stream payload arrived k 539 2); [lia|lia|].
    intros i Hi. apply Hlen. lia. }
  exists f. split; [|split].
  - unfold first_frame_received. cbn [app List.length] in Hfeed.
    rewrite Hfeed.
    replace (0 + 1 + List.length (delivered payload arrived))%nat
      with (540 - missing arrived)%nat by lia.
    rewrite reported_lost_small by lia.
    replace (PACKETS_IN_FRAME_CLIPPED - 2
             - Z.of_nat (List.length (delivered payload arrived)))
      with (Z.of_nat (missing arrived) - 1) by lia.
    reflexivity.
  - rewrite (Hslots 0 ltac:(lia)). unfold expected_slot. rewrite Hlast.
    reflexivity.
  - intros i Hi. rewrite (Hslots (i - 1) ltac:(lia)).
    unfold expected_slot. rewrite Hlast.
    replace (i - 1 + 1) with i by lia.
    destruct (Z.leb_spec 2 i); [|lia].
    destruct (Z.ltb_spec i 541); [|lia].
    cbn [andb]. destruct (arrived i); [reflexivity|].
    destruct (Z.eqb_spec (i - 1) 0); [lia|reflexivity].
Qed.

Lemma first_frame_in_order_witness :
  (forall i, 1 <= i <= PACKETS_IN_FRAME_CLIPPED ->
             List.length (constant_payload i) = Z.to_nat UINT16_IN_PACKET)
  /\ exists f,
       feed SeekingStart
         (first_frame_received constant_payload (fun i => negb (i =? 270)))
       = Some (SeekingStart,
               repeat NeedMore (540 - missing (fun i => negb (i =? 270)))
               ++ [FrameReady f
                     (Z.of_nat (missing (fun i => negb (i =? 270))) - 1)])
       /\ slot_content f 269 = repeat 0 (Z.to_nat UINT16_IN_PACKET)
       /\ slot_content f 270 = constant_payload 271.
Proof.
  split; [intros i _; apply constant_payload_length|].
  destruct (first_frame_in_order constant_payload (fun i => negb (i =? 270))
              (fun i _ => constant_payload_length i))
    as [f [Hfeed [_ Hslots]]].
  exists f. split; [exact Hfeed|]. split.
  - apply (Hslots 270). rewrite PACKETS_IN_FRAME_CLIPPED_eq. lia.
  - apply (Hslots 271). rewrite PACKETS_IN_FRAME_CLIPPED_eq. lia.
Defined.

(** ** The command message, whatever the texts passed *)

Lemma string_append_assoc (a b c : string) :
  ((a ++ b) ++ c)%string = (a ++ (b ++ c))%string.
Proof.
  induction a as [|x a IH]; [reflexivity|].
  cbn [String.append]. rewrite IH. reflexivity.
Qed.

Lemma fromhex_footer_none_aux (s : string) :
  (Bytes.fromhex s = None ->
   Bytes.fromhex (s ++ CONFIG_FOOTER) = None)
  /\ (forall c, Bytes.fromhex (String c s) = None ->
                Bytes.fromhex (String c s ++ CONFIG_FOOTER) = None).
Proof.
  induction s as [|d s [IH1 IH2]].
  - split; [discriminate|].
    intros c H. cbn [String.append Bytes.fromhex] in *.
    destruct (Bytes.is_space c); [discriminate|].
    destruct (Bytes.hex_digit c); reflexivity.
  - split; [apply IH2|].
    intros c H.
    change (String c (String d s) ++ CONFIG_FOOTER)%string
      with (String c (String d (s ++ CONFIG_FOOTER))).
    cbn [Bytes.fromhex] in *.
    destruct (Bytes.is_space c); [apply (IH2 d), H|].
    destruct (Bytes.hex_digit c); [|reflexivity].
    destruct (Bytes.hex_digit d); [|reflexivity].
    destruct (Bytes.fromhex s) as [r|] eqn:Hs; [discriminate|].
    rewrite (IH1 eq_refl). reflexivity.
Qed.

(** The footer after a text: it parses exactly when the text does. *)
Lemma fromhex_footer (s : string) :
  Bytes.fromhex (s ++ CONFIG_FOOTER)
  = match Bytes.fromhex s with
    | Some body => Some (body ++ footer_bytes)
    | None => None
    end.
Proof.
  destruct (Bytes.fromhex s) as [body|] eqn:Hs.
  - apply fromhex_app; [exact Hs|reflexivity].
  - apply fromhex_footer_none_aux, Hs.
Qed.

(** The header and the code before a text. *)
Lemma fromhex_header_code (c : CMD) (rest : string) :
  Bytes.fromhex (CONFIG_HEADER ++ value c ++ rest)
  = match Bytes.fromhex rest with
    | Some r => Some (header_bytes ++ code_bytes c ++ r)
    | None => None
    end.
Proof.
  destruct (Bytes.fromhex rest) as [r|] eqn:E.
  - apply (fromhex_app CONFIG_HEADER _ header_bytes); [reflexivity|].
    apply fromhex_app; [apply fromhex_value|exact E].
  - destruct c; cbn; rewrite E; reflexivity.
Qed.

Lemma send_command_typed (c : CMD) (length params : string) :
  send_command_message (OfCMD c) length params
  = match Bytes.fromhex (length ++ params) with
    | Some body => Some (header_bytes ++ code_bytes c ++ body ++ footer_bytes)
    | None => None
    end.
Proof.
  unfold send_command_message. rewrite fromhex_header_code.
  rewrite <- string_append_assoc, fromhex_footer.
  destruct (Bytes.fromhex (length ++ params)); reflexivity.
Qed.

(** X10. A typed command raises [ValueError] exactly when the length text
    followed by the params text is not hexadecimal text [bytes.fromhex]
    accepts; otherwise the message is the header, the command's code, the
    bytes of that text and the footer. Only the two texts joined count: a
    length of three digits and params of one are accepted. *)
Theorem send_command_typed_result (c : CMD) (length params : string) :
  send_command_message (OfCMD c) length params
  = match Bytes.fromhex (length ++ params) with
    | Some body => Some (header_bytes ++ code_bytes c ++ body ++ footer_bytes)
    | None => None
    end.
Proof. apply send_command_typed. Qed.

Lemma code_bytes_injective (c1 c2 : CMD) :
  code_bytes c1 = code_bytes c2 -> c1 = c2.
Proof. destruct c1, c2; intros H; try reflexivity; discriminate H. Qed.

(** X11. Two typed commands that give the same message have the same
    command code, whatever length and params texts they were given: the
    fourteen codes are distinct on the wire. *)
Theorem send_command_code_determined (c1 c2 : CMD)
  (length1 params1 length2 params2 : string) (message : list byte) :
  send_command_message (OfCMD c1) length1 params1 = Some message ->
  send_command_message (OfCMD c2) length2 params2 = Some message ->
  c1 = c2.
Proof.
  rewrite !send_command_typed. intros H1 H2.
  destruct (Bytes.fromhex (length1 ++ params1)) as [b1|]; [|discriminate].
  destruct (Bytes.fromhex (length2 ++ params2)) as [b2|]; [|discriminate].
  assert (Hm : (header_bytes ++ code_bytes c1 ++ b1 ++ footer_bytes)%list
               = (header_bytes ++ code_bytes c2 ++ b2 ++ footer_bytes)%list)
    by congruence.
  apply app_inv_head in Hm.
  apply code_bytes_injective.
  destruct c1, c2; cbn [code_bytes app] in Hm |- *;
    try reflexivity; discriminate Hm.
Qed.

Lemma send_command_code_determined_witness :
  send_command_message (OfCMD RECORD_START_CMD_CODE) "0000" ""
  = Some [x5a; xa5; x05; x00; x00; x00; xaa; xee]
  /\ send_command_message (OfCMD RECORD_START_CMD_CODE) "00" "00"
     = Some [x5a; xa5; x05; x00; x00; x00; xaa; xee]
  /\ RECORD_START_CMD_CODE = RECORD_START_CMD_CODE.
Proof.
  split; [reflexivity|]. split; [reflexivity|].
  apply (send_command_code_determined RECORD_START_CMD_CODE
           RECORD_START_CMD_CODE "0000" "" "00" "00"
           [x5a; xa5; x05; x00; x00; x00; xaa; xee]); reflexivity.
Defined.

(** ** [configure] *)

Lemma configure_run (replies : list reply) (sent0 : list (list byte)) :
  configure (mkChannel replies sent0)
  = (if (5 <=? answered replies)%nat then inl tt else inr AttributeError,
     mkChannel (skipn (Nat.min 5 (answered replies + 1)) replies)
               (sent0 ++ firstn (Nat.min 5 (answered replies + 1))
                           configure_messages)).
Proof.
  destruct replies as [|[b1|] [|[b2|] [|[b3|] [|[b4|] [|[b5|] rest]]]]];
    cbn; rewrite <- ?app_assoc; reflexivity.
Qed.

(** X12. [configure] sends connect, read-version, configure-FPGA,
    configure-packet-data and record-start in that order, each after the
    response to the one before. At the first command left without a
    response it raises [AttributeError] (the timeout text has no [hex]) and
    the commands after it are not sent: with [k] responses before the first
    timeout, [k + 1] messages are sent, at most five, and [configure]
    returns only when all five were answered. *)
Theorem configure_sends_until_timeout (replies : list reply)
  (sent0 : list (list byte)) :
  configure (mkChannel replies sent0)
  = (if (5 <=? answered replies)%nat then inl tt else inr AttributeError,
     mkChannel (skipn (Nat.min 5 (answered replies + 1)) replies)
               (sent0 ++ firstn (Nat.min 5 (answered replies + 1))
                           configure_messages)).
Proof. apply configure_run. Qed.

Lemma In_firstn_In {A : Type} (n : nat) (l : list A) (x : A) :
  In x (firstn n l) -> In x l.
Proof.
  intros H. rewrite <- (firstn_skipn n l). apply in_or_app. left. exact H.
Qed.

(** X13. In every message [configure] sends, the length field (bytes 4 and
    5, little-endian) is the number of params bytes, the message being
    header, code, length field, params and footer: 8 bytes more than its
    params. *)
Theorem configure_messages_length_field (replies : list reply)
  (message : list byte) :
  In message (sent (snd (configure (mkChannel replies [])))) ->
  length_field message = Z.of_nat (List.length message) - 8
  /\ firstn 2 message = header_bytes
  /\ skipn (List.length message - 2) message = footer_bytes.
Proof.
  rewrite configure_run. cbn [snd sent app]. intros H.
  apply In_firstn_In in H. unfold configure_messages in H. cbn [In] in H.
  destruct H as [<-|[<-|[<-|[<-|[<-|[]]]]]]; repeat split; reflexivity.
Qed.

Lemma configure_messages_length_field_witness :
  In [x5a; xa5; x03; x00; x06; x00; x01; x02; x01; x02; x03; x1e; xaa; xee]
     (sent (snd (configure
                   (mkChannel [Response []; Response []; ResponseTimeout] []))))
  /\ length_field
       [x5a; xa5; x03; x00; x06; x00; x01; x02; x01; x02; x03; x1e; xaa; xee]
     = 6.
Proof.
  split; [cbn; auto|].
  apply (configure_messages_length_field
           [Response []; Response []; ResponseTimeout]).
  cbn. auto.
Defined.

(** ** The capture probe *)

Lemma py_max_spec (rest : list Z) :
  forall x : Z,
    In (py_max x rest) (x :: rest)
    /\ forall y, In y (x :: rest) -> y <= py_max x rest.
Proof.
  unfold py_max. induction rest as [|z rest IH]; intros x.
  - cbn. split; [left; reflexivity|]. intros y [<-|[]]. lia.
  - cbn [fold_left]. destruct (IH (Z.max x z)) as [Hin Hmax]. split.
    + destruct Hin as [E|Hin].
      * rewrite <- E. destruct (Z.max_spec x z) as [[_ ->]|[_ ->]].
        -- right. left. reflexivity.
        -- left. reflexivity.
      * right. right. exact Hin.
    + intros y [<-|[<-|Hy]].
      * specialize (Hmax (Z.max x z) (or_introl eq_refl)). lia.
      * specialize (Hmax (Z.max x z) (or_introl eq_refl)). lia.
      * apply Hmax. right. exact Hy.
Qed.

Lemma capture_udp_packets_In (capture : list captured) (s : Z) :
  In s (capture_udp_packets capture) <-> In (WithUdp (s + 8)) capture.
Proof.
  induction capture as [|[l|] capture IH]; cbn [capture_udp_packets In].
  - tauto.
  - rewrite IH. split.
    + intros [<-|H]; [left; f_equal; lia|right; exact H].
    + intros [E|H]; [left; injection E as E; lia|right; exact H].
  - rewrite IH. split; [auto|]. intros [E|H]; [discriminate|exact H].
Qed.

Lemma probe_sizes_spec (capture : list captured) :
  match probe_sizes capture with
  | None => forall l, ~ In (WithUdp l) capture
  | Some (max_packet_size, bytes_in_packet) =>
    max_packet_size = bytes_in_packet + 8
    /\ In (WithUdp max_packet_size) capture
    /\ forall l, In (WithUdp l) capture -> l <= max_packet_size
  end.
Proof.
  unfold probe_sizes.
  destruct (capture_udp_packets capture) as [|x rest] eqn:E.
  - intros l Hl.
    assert (H : In (l - 8) (capture_udp_packets capture)).
    { apply capture_udp_packets_In. replace (l - 8 + 8) with l by lia.
      exact Hl. }
    rewrite E in H. exact H.
  - destruct (py_max_spec rest x) as [Hin Hmax].
    split; [reflexivity|]. split.
    + apply capture_udp_packets_In. rewrite E. exact Hin.
    + intros l Hl.
      assert (H : In (l - 8) (capture_udp_packets capture)).
      { apply capture_udp_packets_In. replace (l - 8 + 8) with l by lia.
        exact Hl. }
      rewrite E in H. specialize (Hmax _ H). lia.
Qed.

(** X14. The probe prints no size exactly when no captured packet has a UDP
    layer. Otherwise the maximum packet size it prints is the largest UDP
    length field among the captured packets, one of them having it, and
    the bytes-per-packet it prints is 8 less. *)
Theorem probe_reports_largest_udp_packet (capture : list captured) :
  (probe_sizes capture = None <-> forall l, ~ In (WithUdp l) capture)
  /\ forall max_packet_size bytes_in_packet,
       probe_sizes capture = Some (max_packet_size, bytes_in_packet) ->
       max_packet_size = bytes_in_packet + 8
       /\ In (WithUdp max_packet_size) capture
       /\ forall l, In (WithUdp l) capture -> l <= max_packet_size.
Proof.
  pose proof (probe_sizes_spec capture) as H.
  destruct (probe_sizes capture) as [[m b]|]; split.
  - split; [discriminate|]. intros Hno. exfalso.
    destruct H as [_ [Hin _]]. exact (Hno _ Hin).
  - intros m' b' E. injection E as <- <-. exact H.
  - split; auto.
  - intros m' b' E. discriminate E.
Qed.

(** ** The order in which packets arrive *)

(** A frame buffer is its slots and its tail. *)
Lemma buffer_ext (f g : list Z) :
  Z.of_nat (List.length f) = UINT16_IN_FRAME ->
  Z.of_nat (List.length g) = UINT16_IN_FRAME ->
  (forall k, 0 <= k < PACKETS_IN_FRAME_CLIPPED ->
             slot_content f k = slot_content g k) ->
  tail_zero f -> tail_zero g ->
  f = g.
Proof.
  intros Hf Hg Hslots Tf Tg.
  pose proof UINT16_IN_FRAME_eq as HF. pose proof UINT16_IN_PACKET_eq as HU.
  pose proof PACKETS_IN_FRAME_CLIPPED_eq as HP.
  pose proof wordsPerClippedFrame_eq as HW.
  apply (nth_ext _ _ 0 0); [lia|].
  intros i Hi.
  destruct (Z_lt_le_dec (Z.of_nat i) wordsPerClippedFrame) as [L|L];
    [|rewrite (Tf i L), (Tg i L); reflexivity].
  set (k := Z.of_nat i / 728).
  assert (Hk : 0 <= k < PACKETS_IN_FRAME_CLIPPED).
  { unfold k. split; [apply Z.div_pos; lia|].
    apply Z.div_lt_upper_bound; lia. }
  assert (Hlo : k * 728 <= Z.of_nat i < (k + 1) * 728).
  { unfold k. pose proof (Z.mul_div_le (Z.of_nat i) 728 ltac:(lia)).
    pose proof (Z.mul_succ_div_gt (Z.of_nat i) 728 ltac:(lia)). lia. }
  specialize (Hslots k Hk). unfold slot_content in Hslots.
  rewrite !getslice_inside in Hslots by lia.
  apply (f_equal (fun l => nth (i - Z.to_nat (k * UINT16_IN_PACKET)) l 0))
    in Hslots.
  rewrite !nth_slice in Hslots by lia.
  destruct (Nat.ltb_spec (i - Z.to_nat (k * UINT16_IN_PACKET))
              (Z.to_nat ((k + 1) * UINT16_IN_PACKET)
               - Z.to_nat (k * UINT16_IN_PACKET))) as [_|Hbad]; [|lia].
  replace (Z.to_nat (k * UINT16_IN_PACKET)
           + (i - Z.to_nat (k * UINT16_IN_PACKET)))%nat with i in Hslots
    by lia.
  exact Hslots.
Qed.

Lemma last_placed_none (k : Z) (ps : list packet) :
  ~ In k (map slot_of ps) -> last_placed k ps = None.
Proof.
  induction ps as [|q ps IH]; intros Hn; [reflexivity|].
  cbn [last_placed map In] in *.
  rewrite IH by tauto.
  destruct (Z.eqb_spec (slot_of q) k); [tauto|reflexivity].
Qed.

Lemma last_placed_unique (k : Z) (ps : list packet) (p : packet) :
  NoDup (map slot_of ps) -> In p ps -> slot_of p = k ->
  last_placed k ps = placed (packet_data p).
Proof.
  induction ps as [|q ps IH]; intros Hnd Hin Hk; [destruct Hin|].
  cbn [map] in Hnd. inversion Hnd as [|? ? Hq Hnd']. subst.
  cbn [last_placed]. destruct Hin as [->|Hin].
  - rewrite last_placed_none by exact Hq.
    rewrite Z.eqb_refl. reflexivity.
  - rewrite (IH Hnd' Hin eq_refl).
    destruct (placed (packet_data p)); [reflexivity|].
    destruct (Z.eqb_spec (slot_of q) (slot_of p)) as [E|E]; [|reflexivity].
    exfalso. apply Hq. rewrite E. apply in_map. exact Hin.
Qed.

Lemma last_placed_permutation (k : Z) (ps ps' : list packet) :
  Permutation ps ps' -> NoDup (map slot_of ps) ->
  last_placed k ps = last_placed k ps'.
Proof.
  intros Hperm Hnd.
  assert (Hnd' : NoDup (map slot_of ps')).
  { eapply Permutation_NoDup; [|exact Hnd]. apply Permutation_map, Hperm. }
  destruct (in_dec Z.eq_dec k (map slot_of ps)) as [Hin|Hout].
  - apply in_map_iff in Hin. destruct Hin as [p [Hk Hp]].
    rewrite (last_placed_unique k ps p Hnd Hp Hk).
    symmetry. apply last_placed_unique; [exact Hnd'| |exact Hk].
    eapply Permutation_in; eassumption.
  - rewrite (last_placed_none k ps Hout).
    symmetry. apply last_placed_none. intros Hin. apply Hout.
    eapply Permutation_in; [|exact Hin].
    apply Permutation_map, Permutation_sym, Hperm.
Qed.

(** X15. The frame does not depend on the order in which the packets
    between its boundaries arrive, as long as no two of them aim at the
    same slot: the same packets in any order give the same frame and the
    same loss count. *)
Theorem frame_independent_of_arrival_order (pre mid mid' : list packet)
  (start closing : packet) (w0 : list Z) :
  Forall (fun p => boundary p = false) pre ->
  boundary start = true ->
  placed (packet_data start) = Some w0 ->
  Forall (fun p => boundary p = false) mid ->
  boundary closing = true ->
  Permutation mid mid' ->
  NoDup (map slot_of mid) ->
  exists f lost n,
    feed SeekingStart (pre ++ start :: mid ++ [closing])
    = Some (SeekingStart, repeat NeedMore n ++ [FrameReady f lost])
    /\ feed SeekingStart (pre ++ start :: mid' ++ [closing])
       = Some (SeekingStart, repeat NeedMore n ++ [FrameReady f lost]).
Proof.
  intros Hpre Hs Hw Hmid Hc Hperm Hnd.
  assert (Hmid' : Forall (fun p => boundary p = false) mid').
  { eapply Permutation_Forall; eassumption. }
  destruct (feed_frame_cycle_content pre mid start closing w0
              Hpre Hs Hw Hmid Hc) as [f [Hfeed [Hlen [Hslots Htail]]]].
  destruct (feed_frame_cycle_content pre mid' start closing w0
              Hpre Hs Hw Hmid' Hc) as [g [Hfeed' [Hlen' [Hslots' Htail']]]].
  assert (Hfg : g = f).
  { apply buffer_ext; auto. intros k Hk.
    rewrite (Hslots k Hk), (Hslots' k Hk). unfold expected_slot.
    rewrite (last_placed_permutation k mid mid' Hperm Hnd). reflexivity. }
  subst g.
  exists f, (reported_lost (List.length mid)),
    (List.length pre + 1 + List.length mid)%nat.
  split; [exact Hfeed|].
  rewrite Hfeed', <- (Permutation_length Hperm). reflexivity.
Qed.

Lemma frame_independent_of_arrival_order_witness :
  Permutation [stream_packet constant_payload 2; stream_packet constant_payload 3]
              [stream_packet constant_payload 3; stream_packet constant_payload 2]
  /\ NoDup (map slot_of [stream_packet constant_payload 2;
                         stream_packet constant_payload 3])
  /\ exists f lost n,
       feed SeekingStart
         ([] ++ sample_start
          :: [stream_packet constant_payload 2; stream_packet constant_payload 3]
          ++ [sample_closing])
       = Some (SeekingStart, repeat NeedMore n ++ [FrameReady f lost])
       /\ feed SeekingStart
            ([] ++ sample_start
             :: [stream_packet constant_payload 3; stream_packet constant_payload 2]
             ++ [sample_closing])
          = Some (SeekingStart, repeat NeedMore n ++ [FrameReady f lost]).
Proof.
  assert (Hperm : Permutation
                    [stream_packet constant_payload 2;
                     stream_packet constant_payload 3]
                    [stream_packet constant_payload 3;
                     stream_packet constant_payload 2])
    by apply perm_swap.
  assert (Hnd : NoDup (map slot_of [stream_packet constant_payload 2;
                                    stream_packet constant_payload 3])).
  { change (NoDup [1; 2]). repeat constructor; cbn; intuition lia. }
  split; [exact Hperm|]. split; [exact Hnd|].
  apply (frame_independent_of_arrival_order [] _ _ sample_start sample_closing
           (constant_payload 257) (Forall_nil _) eq_refl
           (placed_full _ (constant_payload_length 257))); auto.
Defined.

(** ** The two loops of [read] and the assembler *)

Lemma read_from_is_read_by_ingest (evs : list recv_event) :
  forall (self : session) (st : state),
    read_from self st evs = read_by_ingest self st evs.
Proof.
  induction evs as [|ev evs IH]; intros self st.
  - apply read_from_exhausted.
  - cbn [read_by_ingest].
    destruct (_read_data_packet ev) as [p|] eqn:Hp;
      [|apply read_from_no_packet, Hp].
    destruct (ingest st p) as [st' [|f lost]|] eqn:Hi.
    + rewrite (read_from_step self st st' ev p evs Hp Hi). apply IH.
    + apply (read_from_frame self st st' ev p evs f lost Hp Hi).
    + apply (read_from_raise self st ev p evs Hp Hi).
Qed.

(** X16. The two loops of [read] are one loop over a two-state assembler:
    [read] decodes the events in order and hands each packet to [ingest],
    from the seeking state, until [ingest] emits a frame (returned, with
    its loss count stored in the session), an event yields no packet
    ([None] is returned) or [ingest] raises. *)
Theorem read_is_loop_over_ingest (self : session) (evs : list recv_event) :
  read self evs = read_by_ingest self SeekingStart evs.
Proof.
  rewrite read_is_read_from. apply read_from_is_read_by_ingest.
Qed.

(** ** Successive calls of [read] *)

(** What a call returns does not depend on the session, and the session
    changes only when a frame is returned. *)
Lemma read_by_ingest_session (evs : list recv_event) :
  forall (s1 s2 : session) (st : state),
    match read_by_ingest s1 st evs with
    | (ReturnFrame f, t1) =>
      exists lost,
        t1 = mkSession (Some lost)
        /\ read_by_ingest s2 st evs = (ReturnFrame f, mkSession (Some lost))
    | (ReturnNone, t1) =>
      t1 = s1 /\ read_by_ingest s2 st evs = (ReturnNone, s2)
    | (RaiseValueError, t1) =>
      t1 = s1 /\ read_by_ingest s2 st evs = (RaiseValueError, s2)
    end.
Proof.
  induction evs as [|ev evs IH]; intros s1 s2 st; cbn [read_by_ingest].
  - split; reflexivity.
  - destruct (_read_data_packet ev) as [p|]; [|split; reflexivity].
    destruct (ingest st p) as [st' [|f lost]|].
    + apply IH.
    + exists lost. split; reflexivity.
    + split; reflexivity.
Qed.

Lemma lost_packets_after_read (self : session) (evs : list recv_event) :
  lost_packets (snd (read self evs))
  = match returned_lost evs with
    | Some lost => Some lost
    | None => lost_packets self
    end.
Proof.
  unfold returned_lost. rewrite !read_is_read_from.
  rewrite !read_from_is_read_by_ingest.
  pose proof (read_by_ingest_session evs init self SeekingStart) as H.
  destruct (read_by_ingest init SeekingStart evs) as [[f| |] t1].
  - destruct H as [lost [-> ->]]. reflexivity.
  - destruct H as [_ ->]. reflexivity.
  - destruct H as [_ ->]. reflexivity.
Qed.

(** X17. Over successive calls of [read] on one session, [lost_packets]
    is the loss count of the last call that returned a frame, and what it
    was before the calls when none did: for a new session it stays [None]
    until a call returns a frame, and calls that return [None] or raise
    never change it. *)
Theorem lost_packets_after_reads (calls : list (list recv_event)) :
  forall self : session,
    lost_packets (reads self calls)
    = match last_returned_lost calls with
      | Some lost => Some lost
      | None => lost_packets self
      end.
Proof.
  unfold reads.
  induction calls as [|evs calls IH]; intros self; [reflexivity|].
  cbn [fold_left last_returned_lost]. rewrite IH.
  destruct (last_returned_lost calls); [reflexivity|].
  apply lost_packets_after_read.
Qed.
